(** * Verification of the map-listing scraper [main.py]

    A shallow embedding of the scraper's Python source and the theorems
    that settle the specification's claims about it.

    Conventions of the embedding.
    - A Python [str] is a list of characters; a character is a code point
      below 256, so the whitespace classes below are Python's, restricted
      to that range.
    - A Python [float] is represented by the exact rational value of the
      decimal literal it was parsed from, or by one of the special values
      [inf], [-inf], [nan].  The rounding to binary64 that CPython applies
      afterwards is not modelled, and [-0.0] is identified with [0.0].
    - A raised exception is the [Raise] case of [outcome]; only subclasses
      of Python's [Exception] are values of [exn].
    - The browser is an external capability.  What it shows is described
      by plain data (elements matched by a locator, the page reached by a
      click, the result panel after each scroll); Playwright's locator
      operations are functions over that data.
    - [page.wait_for_timeout] only passes time and has no counterpart. *)

From Stdlib Require Import String Ascii ZArith QArith Lia Bool Arith List.
From Stdlib Require Import DecimalString.
Import ListNotations.

Open Scope string_scope.
Open Scope Z_scope.
Open Scope nat_scope.
Open Scope list_scope.

(** ** Python values: strings, numbers, exceptions *)

Module Py.

Definition str := list ascii.

(** String literals are written as Rocq strings and read as [str]. *)
Coercion list_ascii_of_string : string >-> list.

(** Subclasses of [Exception] that the modelled operations raise. *)
Inductive exn : Type :=
  | ValueError
  | IndexError
  | AttributeError
  | OSError
  | PlaywrightTimeoutError
  | PlaywrightError.

Inductive outcome (A : Type) : Type :=
  | Return (a : A)
  | Raise (e : exn).

Arguments Return {A} a.
Arguments Raise {A} e.

Definition bind {A B : Type} (m : outcome A) (k : A -> outcome B) : outcome B :=
  match m with
  | Return a => k a
  | Raise e => Raise e
  end.

Notation "x <- m ;; k" := (bind m (fun x => k))
  (at level 61, m at next level, right associativity).

Definition of_option {A : Type} (e : exn) (o : option A) : outcome A :=
  match o with
  | Some a => Return a
  | None => Raise e
  end.

(** [l[i]] for a list, negative indices counting from the end. *)
Definition getitem {A : Type} (l : list A) (i : Z) : outcome A :=
  let n := Z.of_nat (length l) in
  let j := if (i <? 0)%Z then (i + n)%Z else i in
  if ((0 <=? j) && (j <? n))%Z
  then of_option IndexError (nth_error l (Z.to_nat j))
  else Raise IndexError.

(** [l[:k]]: a negative bound counts from the end. *)
Definition slice_to {A : Type} (l : list A) (k : Z) : list A :=
  if (k <? 0)%Z
  then firstn (Z.to_nat (Z.of_nat (length l) + k)) l
  else firstn (Z.to_nat k) l.

(** [x or s] with [s] the empty string, for an optional string [x]:
    [None] and the empty string are the falsy values. *)
Definition or_empty (x : option str) : str :=
  match x with
  | Some s => s
  | None => []
  end.

(** [str.isspace] on one character (code points below 256). *)
Definition isspace (c : ascii) : bool :=
  let n := nat_of_ascii c in
  ((9 <=? n) && (n <=? 13)) || ((28 <=? n) && (n <=? 32))
  || (n =? 133) || (n =? 160).

Fixpoint lstrip (s : str) : str :=
  match s with
  | [] => []
  | c :: r => if isspace c then lstrip r else s
  end.

Definition rstrip (s : str) : str := rev (lstrip (rev s)).

(** [s.strip()] *)
Definition strip (s : str) : str := rstrip (lstrip s).

Fixpoint startswith (p s : str) : bool :=
  match p, s with
  | [], _ => true
  | _ :: _, [] => false
  | a :: p', b :: s' => Ascii.eqb a b && startswith p' s'
  end.

(** [sub in s] *)
Fixpoint contains (sub s : str) : bool :=
  match s with
  | [] => startswith sub []
  | _ :: r => startswith sub s || contains sub r
  end.

Definition push_front (c : ascii) (parts : list str) : list str :=
  match parts with
  | [] => [[c]]
  | h :: t => (c :: h) :: t
  end.

(** [s.split(sep)] for a non-empty separator: occurrences are found from
    the left and do not overlap.  [skip] counts the characters of a
    separator just matched that are still to be passed over. *)
Fixpoint split_from (sep : str) (skip : nat) (s : str) : list str :=
  match s with
  | [] => [[]]
  | c :: r =>
      match skip with
      | S k => split_from sep k r
      | O =>
          if startswith sep s
          then [] :: split_from sep (length sep - 1) r
          else push_front c (split_from sep 0 r)
      end
  end.

Definition split (sep s : str) : list str := split_from sep 0 s.

(** [s.split()]: split on runs of whitespace, no empty parts. *)
Fixpoint split_ws (s : str) : list str :=
  match s with
  | [] => []
  | c :: r =>
      if isspace c then split_ws r
      else match r with
           | [] => [[c]]
           | d :: _ =>
               if isspace d then [c] :: split_ws r
               else push_front c (split_ws r)
           end
  end.

(** [s.replace(old, new)] for a one-character [old], the only form the
    source uses. *)
Definition replace (old : ascii) (new : str) (s : str) : str :=
  flat_map (fun c => if Ascii.eqb c old then new else [c]) s.

(** *** Numbers *)

Inductive pyfloat : Type :=
  | FNum (q : Q)
  | FInf (negative : bool)
  | FNan.

Definition isdigit (c : ascii) : bool :=
  let n := nat_of_ascii c in (48 <=? n) && (n <=? 57).

Definition digit_value (c : ascii) : Z := Z.of_nat (nat_of_ascii c - 48).

Definition decimal_value (digits : str) : Z :=
  fold_left (fun acc c => (10 * acc + digit_value c)%Z) digits 0%Z.

(** Whitespace that [float] and [int] strip: the ASCII class, and the
    non-ASCII spaces, which CPython first rewrites to a blank. *)
Definition isspace_number (c : ascii) : bool :=
  let n := nat_of_ascii c in
  ((9 <=? n) && (n <=? 13)) || (n =? 32) || (n =? 133) || (n =? 160).

Fixpoint lstrip_number (s : str) : str :=
  match s with
  | [] => []
  | c :: r => if isspace_number c then lstrip_number r else s
  end.

Definition strip_number (s : str) : str :=
  rev (lstrip_number (rev (lstrip_number s))).

(** Underscores in numeric text: each must stand between two digits; they
    are removed.  [prev] is the character just before [s]. *)
Fixpoint drop_underscores (prev : ascii) (s : str) : option str :=
  match s with
  | [] => if Ascii.eqb prev "_" then None else Some []
  | c :: r =>
      if Ascii.eqb c "_"
      then if isdigit prev then drop_underscores c r else None
      else if Ascii.eqb prev "_" && negb (isdigit c) then None
      else option_map (cons c) (drop_underscores c r)
  end.

Definition take_sign (s : str) : bool * str :=
  match s with
  | c :: r =>
      if Ascii.eqb c "-" then (true, r)
      else if Ascii.eqb c "+" then (false, r)
      else (false, s)
  | [] => (false, [])
  end.

Fixpoint span_digits (s : str) : str * str :=
  match s with
  | c :: r =>
      if isdigit c
      then let (ds, rest) := span_digits r in (c :: ds, rest)
      else ([], s)
  | [] => ([], [])
  end.

(** ASCII lower-casing, for the case-insensitive [inf] and [nan]. *)
Definition lower (c : ascii) : ascii :=
  let n := nat_of_ascii c in
  if (65 <=? n) && (n <=? 90) then ascii_of_nat (n + 32) else c.

Definition str_eqb (a b : str) : bool :=
  if list_eq_dec ascii_dec a b then true else false.

(** [m * 10^e] as a reduced fraction. *)
Definition scale10 (m e : Z) : Q :=
  if (0 <=? e)%Z
  then inject_Z (m * 10 ^ e)
  else Qred (Qmake m (Z.to_pos (10 ^ (- e)))).

(** An unsigned decimal literal: digits with an optional fraction, at
    least one digit in all, and an optional exponent. *)
Definition parse_decimal (s : str) : option Q :=
  let (ip, r1) := span_digits s in
  let (fp, r2) :=
    match r1 with
    | c :: r => if Ascii.eqb c "." then span_digits r else ([], r1)
    | [] => ([], r1)
    end in
  match ip ++ fp with
  | [] => None
  | _ :: _ =>
      let m := decimal_value (ip ++ fp) in
      let shift := Z.of_nat (length fp) in
      match r2 with
      | [] => Some (scale10 m (- shift))
      | c :: r3 =>
          if Ascii.eqb c "e" || Ascii.eqb c "E"
          then
            let (eneg, r4) := take_sign r3 in
            let (ed, r5) := span_digits r4 in
            match ed, r5 with
            | _ :: _, [] =>
                let e := decimal_value ed in
                Some (scale10 m ((if eneg then - e else e) - shift))
            | _, _ => None
            end
          else None
      end
  end.

Definition parse_float (s : str) : option pyfloat :=
  match drop_underscores "000" s with
  | None => None
  | Some t =>
      let (neg, body) := take_sign (strip_number t) in
      let word := map lower body in
      if str_eqb word "inf" || str_eqb word "infinity" then Some (FInf neg)
      else if str_eqb word "nan" then Some FNan
      else
        match parse_decimal body with
        | Some q => Some (FNum (if neg then Qopp q else q))
        | None => None
        end
  end.

(** [float(s)] *)
Definition float (s : str) : outcome pyfloat :=
  of_option ValueError (parse_float s).

Definition parse_int (s : str) : option Z :=
  let (neg, body) := take_sign (strip_number s) in
  match drop_underscores "000" body with
  | Some (d :: ds) =>
      if forallb isdigit (d :: ds)
      then Some (if neg then (- decimal_value (d :: ds))%Z
                 else decimal_value (d :: ds))
      else None
  | _ => None
  end.

(** [int(s)] *)
Definition int (s : str) : outcome Z :=
  of_option ValueError (parse_int s).

End Py.

Import Py.

(** ** The coordinate parser *)

Definition extract_coordinates_from_url (url : str)
  : outcome (pyfloat * pyfloat) :=
  part <- getitem (split "/@" url) (-1) ;;
  coordinates <- getitem (split "/" part) 0 ;;
  lat_text <- getitem (split "," coordinates) 0 ;;
  lat <- float lat_text ;;
  lng_text <- getitem (split "," coordinates) 1 ;;
  lng <- float lng_text ;;
  Return (lat, lng).

(** ** The browser capability (Playwright), as data *)

Module Playwright.

(** A DOM element, as far as the scraper reads it: [textContent] and the
    attributes by name. *)
Record element : Type := {
  text : option str;
  attributes : list (string * str)
}.

(** The locators of the detail view that the source queries. *)
Inductive xpath : Type :=
  | address_text      (* //button[@data-item-id="address"]//div[contains(@class, "fontBodyMedium")] *)
  | authority_text    (* //a[@data-item-id="authority"]//div[contains(@class, "fontBodyMedium")] *)
  | phone_text        (* //button[contains(@data-item-id, "phone:tel:")]//div[contains(@class, "fontBodyMedium")] *)
  | more_reviews_span (* //button[@jsaction="pane.reviewChart.moreReviews"]//span *)
  | rating_img.       (* //div[@jsaction="pane.reviewChart.moreReviews"]//div[@role="img"] *)

(** The page after an entry was activated: its URL and, for each locator,
    the elements it matches in document order. *)
Record page : Type := {
  url : str;
  dom : xpath -> list element
}.

(** One place link of the result panel: the anchor, its parent row, and
    what clicking on it leads to. *)
Record entry : Type := {
  anchor : element;
  row : element;
  opens : outcome page
}.

(** A locator for one entry: the anchor itself, as [all()] returns it, or
    [locator("xpath=..")] of it. *)
Inductive handle : Type :=
  | Link (e : entry)
  | Parent (e : entry).

Definition target (h : handle) : entry :=
  match h with Link e => e | Parent e => e end.

Definition element_of (h : handle) : element :=
  match h with Link e => anchor e | Parent e => row e end.

(** [locator.count()] *)
Definition count (matched : list element) : nat := length matched.

(** An action on a locator waits for a match and times out when there is
    none; in strict mode more than one match is an error. *)
Definition resolve (matched : list element) : outcome element :=
  match matched with
  | [] => Raise PlaywrightTimeoutError
  | [e] => Return e
  | _ :: _ :: _ => Raise PlaywrightError
  end.

Fixpoint lookup (name : string) (attrs : list (string * str)) : option str :=
  match attrs with
  | [] => None
  | (k, v) :: rest => if String.eqb k name then Some v else lookup name rest
  end.

(** [locator.text_content()] *)
Definition text_content (matched : list element) : outcome (option str) :=
  e <- resolve matched ;; Return (text e).

(** [locator.get_attribute(name)] *)
Definition get_attribute (matched : list element) (name : string)
  : outcome (option str) :=
  e <- resolve matched ;; Return (lookup name (attributes e)).

(** [listing.click()] *)
Definition click (listing : handle) : outcome page := opens (target listing).

(** [page.hover(selector)] takes the first match and times out when
    nothing matches. *)
Definition hover (matched : list entry) : outcome unit :=
  match matched with
  | [] => Raise PlaywrightTimeoutError
  | _ :: _ => Return tt
  end.

End Playwright.

Import Playwright.

(** ** The scraper *)

Record Business : Type := {
  name : option str;
  address : option str;
  website : option str;
  phone_number : option str;
  reviews_count : option Z;
  reviews_average : option pyfloat;
  latitude : option pyfloat;
  longitude : option pyfloat
}.

(** What [print] writes: a text, or [f'Error occurred: {e}']. *)
Inductive line : Type :=
  | Text (s : str)
  | ErrorOccurred (e : exn).

Definition show_nat (n : nat) : str :=
  list_ascii_of_string (NilZero.string_of_uint (Nat.to_uint n)).

Definition newline : str := ["010"%char].

(** *** Field extraction (the arguments of [Business(...)]) *)

(** [page.locator(x).text_content() or s], with [s] the empty string. *)
Definition text_or_empty (p : page) (x : xpath) : outcome str :=
  t <- text_content (dom p x) ;;
  Return (or_empty t).

(** [o.split()] on an optional string: [None] has no such method. *)
Definition split_of (o : option str) : outcome (list str) :=
  s <- of_option AttributeError o ;;
  Return (split_ws s).

Definition read_reviews_count (p : page) : outcome (option Z) :=
  if 0 <? count (dom p more_reviews_span)
  then
    t <- text_content (dom p more_reviews_span) ;;
    words <- split_of t ;;
    first <- getitem words 0 ;;
    n <- int (replace "," [] first) ;;
    Return (Some n)
  else Return None.

Definition read_reviews_average (p : page) : outcome (option pyfloat) :=
  if 0 <? count (dom p rating_img)
  then
    label <- get_attribute (dom p rating_img) "aria-label" ;;
    words <- split_of label ;;
    first <- getitem words 0 ;;
    x <- float (replace "," "." first) ;;
    Return (Some x)
  else Return None.

(** [business.latitude, business.longitude = ...] *)
Definition assign_coordinates (b : Business) (c : pyfloat * pyfloat)
  : Business :=
  {| name := name b;
     address := address b;
     website := website b;
     phone_number := phone_number b;
     reviews_count := reviews_count b;
     reviews_average := reviews_average b;
     latitude := Some (fst c);
     longitude := Some (snd c) |}.

(** The body of the [try] block for one listing. *)
Definition scrape_listing (listing : handle) : outcome Business :=
  p <- click listing ;;
  let name_ := or_empty (lookup "aria-label" (attributes (element_of listing))) in
  address_ <- text_or_empty p address_text ;;
  website_ <- text_or_empty p authority_text ;;
  phone_number_ <- text_or_empty p phone_text ;;
  reviews_count_ <- read_reviews_count p ;;
  reviews_average_ <- read_reviews_average p ;;
  let business :=
    {| name := Some name_;
       address := Some address_;
       website := Some website_;
       phone_number := Some phone_number_;
       reviews_count := reviews_count_;
       reviews_average := reviews_average_;
       latitude := None;
       longitude := None |} in
  c <- extract_coordinates_from_url (url p) ;;
  Return (assign_coordinates business c).

(** *** The record collector: [for listing in listings: try ... except] *)

Definition collect_step (acc : list Business * list line) (listing : handle)
  : list Business * list line :=
  let (business_list, console) := acc in
  match scrape_listing listing with
  | Return business => (business_list ++ [business], console)
  | Raise e => (business_list, console ++ [ErrorOccurred e])
  end.

Definition collect (listings : list handle) (console : list line)
  : list Business * list line :=
  fold_left collect_step listings ([], console).

(** *** The listing discovery loop: [while True: ...] *)

Inductive scan : Type :=
  | Scanning (previously_counted : nat)
  | Done (listings : list handle).

(** [panel] lists what the place-link locator matches after the first,
    second, ... scroll; [count()] and [all()] of one iteration see the
    same matches.  The loop is run on the scrolls observed; it is still
    [Scanning] when they are used up before it breaks. *)
Fixpoint discover (total : Z) (panel : list (list entry))
    (previously_counted : nat) (console : list line) : scan * list line :=
  match panel with
  | [] => (Scanning previously_counted, console)
  | links :: later =>
      let count := length links in
      if (Z.of_nat count >=? total)%Z then
        let listings := map Parent (slice_to links total) in
        (Done listings,
         console ++ [Text ("Total Scraped: " ++ show_nat (length listings))])
      else if count =? previously_counted then
        let listings := map Link links in
        (Done listings,
         console ++ [Text ("Arrived at all available" ++ newline
                           ++ "Total Scraped: " ++ show_nat (length listings))])
      else
        discover total later count
          (console ++ [Text ("Currently Scraped: " ++ show_nat count)])
  end.

(** *** The program: state, endings, and the query loop *)

(** What the site shows for one search text. *)
Record results : Type := {
  searchbox : outcome unit;       (* filling the search box *)
  shown : nat -> list entry       (* place links after [n] scrolls *)
}.

Record world : Type := {
  maps_home : outcome unit;       (* opening the maps page *)
  site : str -> results;
  disk : str -> outcome unit      (* writing the file of that path *)
}.

Inductive action : Type :=
  | Launch
  | Search (search_for : str)
  | Close.

Record session : Type := {
  console : list line;
  browser : list action;
  files : list (str * list Business)
}.

Inductive ending (A : Type) : Type :=
  | Normal (a : A)
  | Uncaught (e : exn)
  | Exited (status : Z)
  | StillScrolling.

Arguments Normal {A} a.
Arguments Uncaught {A} e.
Arguments Exited {A} status.
Arguments StillScrolling {A}.

Definition prog (A : Type) : Type := session -> ending A * session.

Definition ret {A : Type} (a : A) : prog A := fun s => (Normal a, s).

Definition seq_ {A B : Type} (m : prog A) (k : A -> prog B) : prog B :=
  fun s =>
    match m s with
    | (Normal a, s') => k a s'
    | (Uncaught e, s') => (Uncaught e, s')
    | (Exited n, s') => (Exited n, s')
    | (StillScrolling, s') => (StillScrolling, s')
    end.

Notation "x <~ m ;; k" := (seq_ m (fun x => k))
  (at level 61, m at next level, right associativity).
Notation "m ;;; k" := (seq_ m (fun _ => k))
  (at level 61, right associativity).

Definition lift {A : Type} (o : outcome A) : prog A :=
  fun s =>
    match o with
    | Return a => (Normal a, s)
    | Raise e => (Uncaught e, s)
    end.

Definition print (l : line) : prog unit :=
  fun s => (Normal tt,
            {| console := console s ++ [l];
               browser := browser s;
               files := files s |}).

Definition act (a : action) : prog unit :=
  fun s => (Normal tt,
            {| console := console s;
               browser := browser s ++ [a];
               files := files s |}).

(** [sys.exit()] without an argument: [SystemExit(None)], status 0. *)
Definition sys_exit {A : Type} : prog A := fun s => (Exited 0%Z, s).

Definition save_at : str := "output".

(** [save_to_excel] and [save_to_csv]: write the rows under the name. *)
Definition save (w : world) (rows : list Business) (filename extension : str)
  : prog unit :=
  fun s =>
    let path := save_at ++ "/" ++ filename ++ extension in
    match disk w path with
    | Return _ =>
        (Normal tt,
         {| console := console s;
            browser := browser s;
            files := files s ++ [(path, rows)] |})
    | Raise e => (Uncaught e, s)
    end.

Definition place_links (r : results) (scrolls : nat) : list (list entry) :=
  map (shown r) (seq 1 scrolls).

(** The scroll loop inside the program, on [scrolls] observed scrolls. *)
Definition discover_listings (total : Z) (r : results) (scrolls : nat)
  : prog (list handle) :=
  fun s =>
    match discover total (place_links r scrolls) 0 (console s) with
    | (Done listings, out) =>
        (Normal listings,
         {| console := out; browser := browser s; files := files s |})
    | (Scanning _, out) =>
        (StillScrolling,
         {| console := out; browser := browser s; files := files s |})
    end.

Definition collect_records (listings : list handle)
  : prog (list Business) :=
  fun s =>
    let (business_list, out) := collect listings (console s) in
    (Normal business_list,
     {| console := out; browser := browser s; files := files s |}).

(** The body of [for search_for_index, search_for in enumerate(...)]. *)
Definition scrape_query (w : world) (total : Z) (scrolls : nat)
    (search_for_index : nat) (search_for : str) : prog unit :=
  let search_for := strip search_for in
  print (Text ("-----" ++ newline ++ show_nat search_for_index
               ++ " - " ++ search_for)) ;;;
  act (Search search_for) ;;;
  lift (searchbox (site w search_for)) ;;;
  lift (hover (shown (site w search_for) 0)) ;;;
  listings <~ discover_listings total (site w search_for) scrolls ;;
  business_list <~ collect_records listings ;;
  let filename := "google_maps_data_" ++ replace " " "_" search_for in
  save w business_list filename ".xlsx" ;;;
  save w business_list filename ".csv".

Fixpoint scrape_queries (w : world) (total : Z) (scrolls : nat)
    (index : nat) (search_list : list str) : prog unit :=
  match search_list with
  | [] => ret tt
  | search_for :: rest =>
      scrape_query w total scrolls index search_for ;;;
      scrape_queries w total scrolls (S index) rest
  end.

(** [args.search] and [args.total] as parsed: absent is [None]. *)
Definition search_list_of (search : option str) : list str :=
  match search with
  | Some (c :: s) => [c :: s]
  | Some [] => []
  | None => []
  end.

Definition total_of (total : option Z) : Z :=
  match total with
  | Some t => if (t =? 0)%Z then 1000000%Z else t
  | None => 1000000%Z
  end.

Definition no_search_message : str :=
  "Error occurred: You must either pass the -s search argument, or add searches to input.txt".

(** [input_txt] is the content of [input.txt] as [readlines] gives it, or
    [None] when the file does not exist. *)
Definition read_searches (search : option str) (input_txt : option (list str))
  : prog (list str) :=
  match search_list_of search with
  | (_ :: _) as search_list => ret search_list
  | [] =>
      let search_list :=
        match input_txt with
        | Some lines => lines
        | None => []
        end in
      if length search_list =? 0
      then print (Text no_search_message) ;;; sys_exit
      else ret search_list
  end.

Definition main (search : option str) (total : option Z)
    (input_txt : option (list str)) (w : world) (scrolls : nat) : prog unit :=
  let total_ := total_of total in
  search_list <~ read_searches search input_txt ;;
  act Launch ;;;
  lift (maps_home w) ;;;
  scrape_queries w total_ scrolls 0 search_list ;;;
  act Close.

Definition start : session := {| console := []; browser := []; files := [] |}.

(** ** Notions used to state the properties *)

(** The text of [s] before the first [c] (all of [s] when there is none). *)
Fixpoint upto (c : ascii) (s : str) : str :=
  match s with
  | [] => []
  | d :: r => if Ascii.eqb d c then [] else d :: upto c r
  end.

(** [part] is what follows the last ["/@"] of [url], or [url] itself when
    it has no ["/@"]. *)
Definition after_last_marker (url part : str) : Prop :=
  (contains "/@" url = false /\ part = url)
  \/ (exists before, url = before ++ "/@" ++ part
                     /\ contains "/@" part = false).

(** The first two comma-delimited tokens of [segment] are missing or are
    not float literals. *)
Definition ill_formed (segment : str) : Prop :=
  length (split "," segment) < 2
  \/ exists i token, i < 2
       /\ nth_error (split "," segment) i = Some token
       /\ parse_float token = None.

(** A character with which no float literal begins. *)
Definition starts_no_float (c : ascii) : bool :=
  negb (isspace_number c || isdigit c
        || existsb (Ascii.eqb c) (list_ascii_of_string "_+-.")
        || existsb (Ascii.eqb (lower c)) (list_ascii_of_string "in")).

(** The text after the first occurrence of [marker], if there is one. *)
Fixpoint after_first (marker s : str) : option str :=
  match s with
  | [] => None
  | _ :: r =>
      if startswith marker s then Some (skipn (length marker) s)
      else after_first marker r
  end.

(** Split on commas and read the first two tokens as floats. *)
Definition first_two_floats (segment : str) : outcome (pyfloat * pyfloat) :=
  lat_text <- getitem (split "," segment) 0 ;;
  lat <- float lat_text ;;
  lng_text <- getitem (split "," segment) 1 ;;
  lng <- float lng_text ;;
  Return (lat, lng).

(** The coordinate parser as the specification words it: the segment
    after the first ["/@"], up to the next ["/"], split on commas, its
    first two tokens read as floats. *)
Definition first_marker_parser (url : str) : outcome (pyfloat * pyfloat) :=
  match after_first "/@" url with
  | None => Raise ValueError
  | Some part => first_two_floats (upto "/" part)
  end.

(** The loop is still scanning after re-counts [counts], started with
    [previously_counted]: each count is below [total] and differs from
    the one before it. *)
Fixpoint still_scanning (total : Z) (previously_counted : nat)
    (counts : list nat) : bool :=
  match counts with
  | [] => true
  | c :: later =>
      (Z.of_nat c <? total)%Z && negb (c =? previously_counted)
      && still_scanning total c later
  end.

(** The records of the listings whose processing returns, and the
    diagnostics of those whose processing raises, in order. *)
Definition extracted (listings : list handle) : list Business :=
  flat_map (fun listing =>
              match scrape_listing listing with
              | Return business => [business]
              | Raise _ => []
              end) listings.

Definition reported (listings : list handle) : list line :=
  flat_map (fun listing =>
              match scrape_listing listing with
              | Return _ => []
              | Raise e => [ErrorOccurred e]
              end) listings.

(** The leading whitespace-delimited token of [s], if [s] has one. *)
Fixpoint until_space (s : str) : str :=
  match s with
  | [] => []
  | c :: r => if isspace c then [] else c :: until_space r
  end.

Definition leading_token (s : str) : option str :=
  match lstrip s with
  | [] => None
  | c :: r => Some (until_space (c :: r))
  end.

(** Latitude and longitude are both present or both absent. *)
Definition coordinates_paired (b : Business) : Prop :=
  (latitude b = None /\ longitude b = None)
  \/ (latitude b <> None /\ longitude b <> None).

(** Every record of every file written so far satisfies [good]. *)
Definition files_hold (good : Business -> Prop) (s : session) : Prop :=
  forall path rows b, In (path, rows) (files s) -> In b rows -> good b.

(** [m] keeps [files_hold good], and a list it returns holds only good
    records. *)
Definition keeps {A : Type} (good : Business -> Prop)
    (returned : A -> Prop) (m : prog A) : Prop :=
  forall s, files_hold good s ->
    files_hold good (snd (m s))
    /\ forall a, fst (m s) = Normal a -> returned a.

Definition anything {A : Type} (_ : A) : Prop := True.

Definition all_good (good : Business -> Prop) (rows : list Business) : Prop :=
  forall b, In b rows -> good b.

(** ** Sample data *)

Definition div (t : str) : element :=
  {| text := Some t; attributes := [] |}.

Definition img (label : str) : element :=
  {| text := Some []; attributes := [("aria-label"%string, label)] |}.

Definition sample_page (address_ coordinates : str) : page :=
  {| url := "https://www.google.com/maps/place/Cafe/@" ++ coordinates
            ++ ",17z/data=!3m1!4b1";
     dom := fun x =>
       match x with
       | address_text => [div address_]
       | authority_text => [div "cafe.example"]
       | phone_text => [div "555 0100"]
       | more_reviews_span => [div "1,234 reviews"]
       | rating_img => [img "4,5 stars"]
       end |}.

Definition same_xpath (x y : xpath) : bool :=
  match x, y with
  | address_text, address_text => true
  | authority_text, authority_text => true
  | phone_text, phone_text => true
  | more_reviews_span, more_reviews_span => true
  | rating_img, rating_img => true
  | _, _ => false
  end.

(** The page [p] with nothing matching the locator [x]. *)
Definition without (x : xpath) (p : page) : page :=
  {| url := url p;
     dom := fun y => if same_xpath y x then [] else dom p y |}.

Definition sample_entry (label : str) (after_click : outcome page) : entry :=
  {| anchor := {| text := Some label;
                  attributes := [("aria-label"%string, label)] |};
     row := div label;
     opens := after_click |}.

Definition cafe : entry :=
  sample_entry "Cafe" (Return (sample_page "1 Main St" "12.34,-56.78")).

Definition bakery : entry :=
  sample_entry "Bakery" (Return (sample_page "2 Main St" "12.35,-56.79")).

Definition kiosk : entry :=
  sample_entry "Kiosk" (Return (sample_page "3 Main St" "12.36,-56.80")).

(** An entry whose click times out. *)
Definition stuck : entry := sample_entry "Stuck" (Raise PlaywrightTimeoutError).

Definition sample_record (label address_ : str) (lat lng : Q) : Business :=
  {| name := Some label;
     address := Some address_;
     website := Some (list_ascii_of_string "cafe.example");
     phone_number := Some (list_ascii_of_string "555 0100");
     reviews_count := Some 1234%Z;
     reviews_average := Some (FNum (9 # 2));
     latitude := Some (FNum lat);
     longitude := Some (FNum lng) |}.

(** A site that shows nothing for the search "nowhere" and two places for
    any other search; every file can be written. *)
Definition sample_world : world :=
  {| maps_home := Return tt;
     site := fun search_for =>
       if str_eqb search_for "nowhere"
       then {| searchbox := Return tt; shown := fun _ => [] |}
       else {| searchbox := Return tt; shown := fun _ => [cafe; bakery] |};
     disk := fun _ => Return tt |}.

Definition sample_input : list str :=
  ["nowhere" ++ newline; "coffee shops" ++ newline].

(** ** Further notions *)

(** No count is below the one before it, starting from
    [previously_counted]. *)
Fixpoint never_shrinks (previously_counted : nat) (counts : list nat) : bool :=
  match counts with
  | [] => true
  | c :: later => (previously_counted <=? c) && never_shrinks c later
  end.

(** The name and the paths under which a search's batch is saved, from
    the search text as the loop holds it after [strip]. *)
Definition file_name (search_for : str) : str :=
  "google_maps_data_" ++ replace " " "_" search_for.

Definition xlsx_path (search_for : str) : str :=
  save_at ++ "/" ++ file_name search_for ++ ".xlsx".

Definition csv_path (search_for : str) : str :=
  save_at ++ "/" ++ file_name search_for ++ ".csv".

(** The two files of each search, for searches paired with their rows. *)
Definition written (batches : list (str * list Business))
  : list (str * list Business) :=
  flat_map (fun batch =>
              [(xlsx_path (strip (fst batch)), snd batch);
               (csv_path (strip (fst batch)), snd batch)]) batches.

(** The search list that [main] works on. *)
Definition searches (search : option str) (input_txt : option (list str))
  : list str :=
  match search_list_of search with
  | (_ :: _) as search_list => search_list
  | [] =>
      match input_txt with
      | Some lines => lines
      | None => []
      end
  end.

(** The searches made, as the browser log shows them. *)
Definition searched (search_list : list str) : list action :=
  map (fun search_for => Search (strip search_for)) search_list.


(** [tail] is empty or begins with the path separator. *)
Definition ends_segment (tail : str) : Prop :=
  tail = [] \/ exists rest, tail = "/"%char :: rest.


(** * Proofs *)

(** ** Lists and strings *)

Lemma split_from_nonempty (sep : str) (k : nat) (s : str) :
  split_from sep k s <> [].
Proof.
  revert k; induction s as [|c r IH]; intros k; simpl; [discriminate|].
  destruct k as [|k]; [|apply IH].
  destruct (startswith sep (c :: r)); [discriminate|].
  specialize (IH 0). destruct (split_from sep 0 r); simpl; [congruence|discriminate].
Qed.

Lemma getitem_last {A : Type} (l : list A) (x : A) :
  getitem (l ++ [x]) (-1) = Return x.
Proof.
  unfold getitem. rewrite length_app. simpl length.
  replace (-1 <? 0)%Z with true by reflexivity.
  replace (-1 + Z.of_nat (length l + 1))%Z with (Z.of_nat (length l)) by lia.
  replace ((0 <=? Z.of_nat (length l)) && (Z.of_nat (length l) <? Z.of_nat (length l + 1)))%Z with true
    by (symmetry; apply andb_true_intro; split; [apply Z.leb_le|apply Z.ltb_lt]; lia).
  rewrite Nat2Z.id, nth_error_app2, Nat.sub_diag by lia. reflexivity.
Qed.

Lemma getitem_last_app {A : Type} (l l' : list A) :
  l' <> [] -> getitem (l ++ l') (-1) = getitem l' (-1).
Proof.
  intros H. destruct (exists_last H) as [l'' [x ->]].
  rewrite app_assoc, !getitem_last. reflexivity.
Qed.

Lemma getitem_first {A : Type} (x : A) (l : list A) :
  getitem (x :: l) 0 = Return x.
Proof. unfold getitem. simpl. reflexivity. Qed.

Lemma getitem_second {A : Type} (x y : A) (l : list A) :
  getitem (x :: y :: l) 1 = Return y.
Proof.
  unfold getitem. simpl length.
  replace (1 <? 0)%Z with false by reflexivity.
  replace ((0 <=? 1) && (1 <? Z.of_nat (S (S (length l)))))%Z with true
    by (symmetry; apply andb_true_intro; split; [apply Z.leb_le|apply Z.ltb_lt]; lia).
  reflexivity.
Qed.

Arguments Ascii.eqb : simpl never.
Arguments nat_of_ascii : simpl never.

Lemma eqb_refl_ascii (c : ascii) : Ascii.eqb c c = true.
Proof. apply Ascii.eqb_refl. Qed.

Lemma split_char_cons_other (c d : ascii) (s : str) :
  d <> c -> split [c] (d :: s) = push_front d (split [c] s).
Proof.
  intros H. unfold split. simpl.
  destruct (Ascii.eqb_spec c d) as [->|_]; [congruence|reflexivity].
Qed.

Lemma split_char_cons_same (c : ascii) (s : str) :
  split [c] (c :: s) = [] :: split [c] s.
Proof. unfold split. simpl. rewrite Ascii.eqb_refl. reflexivity. Qed.

Lemma split_char_app (c : ascii) (x y : str) :
  ~ In c x -> split [c] (x ++ c :: y) = x :: split [c] y.
Proof.
  induction x as [|d x IH]; intros H; simpl app.
  - apply split_char_cons_same.
  - rewrite split_char_cons_other by (intros ->; apply H; left; reflexivity).
    rewrite IH by (intros Hin; apply H; right; exact Hin). reflexivity.
Qed.

Lemma split_char_none (c : ascii) (x : str) :
  ~ In c x -> split [c] x = [x].
Proof.
  induction x as [|d x IH]; intros H; [reflexivity|].
  rewrite split_char_cons_other by (intros ->; apply H; left; reflexivity).
  rewrite IH by (intros Hin; apply H; right; exact Hin). reflexivity.
Qed.

Lemma upto_not_in (c : ascii) (s : str) : ~ In c (upto c s).
Proof.
  induction s as [|d r IH]; simpl; [tauto|].
  destruct (Ascii.eqb_spec d c) as [->|Hd]; simpl; [tauto|].
  intros [H|H]; [congruence|tauto].
Qed.

Lemma upto_decompose (c : ascii) (s : str) :
  s = upto c s \/ exists rest, s = upto c s ++ c :: rest.
Proof.
  induction s as [|d r IH]; simpl; [left; reflexivity|].
  destruct (Ascii.eqb_spec d c) as [->|Hd].
  - right. exists r. reflexivity.
  - destruct IH as [IH|[rest IH]].
    + left. congruence.
    + right. exists rest. simpl. congruence.
Qed.

Lemma upto_app (c : ascii) (x y : str) :
  ~ In c x -> upto c (x ++ y) = x ++ upto c y.
Proof.
  induction x as [|d x IH]; intros H; simpl; [reflexivity|].
  destruct (Ascii.eqb_spec d c) as [->|Hd]; [exfalso; apply H; left; reflexivity|].
  rewrite IH by (intros Hin; apply H; right; exact Hin). reflexivity.
Qed.

Lemma split_char_head (c : ascii) (s : str) :
  getitem (split [c] s) 0 = Return (upto c s).
Proof.
  destruct (upto_decompose c s) as [H|[rest H]].
  - rewrite H at 1. rewrite split_char_none by apply upto_not_in.
    apply getitem_first.
  - rewrite H at 1. rewrite split_char_app by apply upto_not_in.
    apply getitem_first.
Qed.

(** The marker ["/@"] *)

Lemma split_marker_hit (s : str) :
  split "/@" ("/"%char :: "@"%char :: s) = [] :: split "/@" s.
Proof. reflexivity. Qed.

Lemma split_marker_miss (c : ascii) (s : str) :
  startswith "/@" (c :: s) = false ->
  split "/@" (c :: s) = push_front c (split "/@" s).
Proof. intros H. unfold split. simpl split_from. simpl in H. rewrite H. reflexivity. Qed.

Lemma split_no_marker (s : str) :
  contains "/@" s = false -> split "/@" s = [s].
Proof.
  induction s as [|c r IH]; intros H; [reflexivity|].
  simpl contains in H. apply orb_false_iff in H as [H1 H2].
  rewrite split_marker_miss by exact H1. rewrite IH by exact H2. reflexivity.
Qed.

Lemma split_marker_app_aux (n : nat) : forall (p r : str),
  length p <= n ->
  exists l, l <> [] /\ split "/@" (p ++ "/@" ++ r) = l ++ split "/@" r.
Proof.
  induction n as [|n IH]; intros p r Hlen.
  - destruct p; [|simpl in Hlen; lia].
    exists [[]]. split; [discriminate|reflexivity].
  - destruct p as [|c p].
    + exists [[]]. split; [discriminate|reflexivity].
    + change ((c :: p) ++ "/@" ++ r) with (c :: (p ++ "/@" ++ r)).
      destruct (startswith "/@" (c :: (p ++ "/@" ++ r))) eqn:Hs.
      * change (startswith "/@" (c :: (p ++ "/@" ++ r)))
          with (Ascii.eqb "/" c && startswith ["@"%char] (p ++ "/@" ++ r)) in Hs.
        apply andb_true_iff in Hs as [Hc Hs].
        apply Ascii.eqb_eq in Hc. subst c.
        destruct p as [|d p]; [discriminate Hs|].
        change (startswith ["@"%char] ((d :: p) ++ "/@" ++ r))
          with (Ascii.eqb "@" d && true) in Hs.
        apply andb_true_iff in Hs as [Hd _].
        apply Ascii.eqb_eq in Hd. subst d.
        destruct (IH p r) as [l [Hl Heq]]; [simpl in Hlen; lia|].
        exists ([] :: l). split; [discriminate|].
        change (("@"%char :: p) ++ "/@" ++ r) with ("@"%char :: (p ++ "/@" ++ r)).
        rewrite split_marker_hit, Heq. reflexivity.
      * destruct (IH p r) as [l [Hl Heq]]; [simpl in Hlen; lia|].
        exists (push_front c l). split.
        -- destruct l; simpl; [congruence|discriminate].
        -- rewrite split_marker_miss by exact Hs.
           rewrite Heq.
           destruct l; [congruence|reflexivity].
Qed.

Lemma split_marker_app (p r : str) :
  exists l, l <> [] /\ split "/@" (p ++ "/@" ++ r) = l ++ split "/@" r.
Proof. apply (split_marker_app_aux (length p)). lia. Qed.

Lemma split_marker_last (p r : str) :
  contains "/@" r = false ->
  getitem (split "/@" (p ++ "/@" ++ r)) (-1) = Return r.
Proof.
  intros H. destruct (split_marker_app p r) as [l [_ ->]].
  rewrite split_no_marker by exact H.
  apply getitem_last.
Qed.

Lemma split_marker_none_last (s : str) :
  contains "/@" s = false ->
  getitem (split "/@" s) (-1) = Return s.
Proof.
  intros H. rewrite split_no_marker by exact H. apply (getitem_last []).
Qed.

(** ** The last marker *)

Lemma after_last_marker_exists (url : str) :
  exists part, after_last_marker url part.
Proof.
  induction url as [|c r [part [[Hno ->]|[before [-> Hno]]]]].
  - exists []. left. split; reflexivity.
  - destruct (startswith "/@" (c :: r)) eqn:Hs.
    + change (startswith "/@" (c :: r))
        with (Ascii.eqb "/" c && startswith ["@"%char] r) in Hs.
      apply andb_true_iff in Hs as [Hc Hs].
      apply Ascii.eqb_eq in Hc. subst c.
      destruct r as [|d r]; [discriminate Hs|].
      change (startswith ["@"%char] (d :: r)) with (Ascii.eqb "@" d && true) in Hs.
      apply andb_true_iff in Hs as [Hd _].
      apply Ascii.eqb_eq in Hd. subst d.
      exists r. right. exists []. split; [reflexivity|].
      change (contains "/@" ("@"%char :: r))
        with (startswith "/@" ("@"%char :: r) || contains "/@" r) in Hno.
      apply orb_false_iff in Hno. tauto.
    + exists (c :: r). left. split; [|reflexivity].
      change (contains "/@" (c :: r))
        with (startswith "/@" (c :: r) || contains "/@" r).
      rewrite Hs, Hno. reflexivity.
  - exists part. right. exists (c :: before). split; [reflexivity|exact Hno].
Qed.

Lemma split_marker_after_last (url part : str) :
  after_last_marker url part ->
  getitem (split "/@" url) (-1) = Return part.
Proof.
  intros [[Hno ->]|[before [-> Hno]]].
  - apply split_marker_none_last, Hno.
  - apply split_marker_last, Hno.
Qed.

Lemma extract_coordinates_after_last (url part : str) :
  after_last_marker url part ->
  extract_coordinates_from_url url = first_two_floats (upto "/" part).
Proof.
  intros H. unfold extract_coordinates_from_url.
  rewrite (split_marker_after_last url part H).
  cbn [bind].
  change (list_ascii_of_string "/") with ["/"%char].
  rewrite split_char_head. reflexivity.
Qed.

Lemma first_two_floats_fails (segment : str) :
  (exists e, first_two_floats segment = Raise e) <-> ill_formed segment.
Proof.
  unfold first_two_floats, ill_formed.
  pose proof (split_from_nonempty "," 0 segment) as Hne.
  fold (split "," segment) in Hne.
  destruct (split "," segment) as [|t0 rest]; [congruence|clear Hne].
  rewrite getitem_first. cbn [bind]. unfold float.
  destruct (parse_float t0) as [a|] eqn:H0; cbn [of_option bind].
  - destruct rest as [|t1 rest].
    + split; [intros _; left; simpl; lia|intros _; eexists; reflexivity].
    + rewrite getitem_second. cbn [bind].
      destruct (parse_float t1) as [b|] eqn:H1; cbn [of_option bind].
      * split; [intros [e He]; discriminate|].
        intros [Hlen|[i [token [Hi [Hnth Hnone]]]]]; [simpl in Hlen; lia|].
        destruct i as [|[|i]]; [| |lia]; simpl in Hnth; congruence.
      * split; [|intros _; eexists; reflexivity].
        intros _. right. exists 1, t1. repeat split; [lia|assumption].
  - split; [|intros _; eexists; reflexivity].
    intros _. right. exists 0, t0. repeat split; [lia|assumption].
Qed.

Lemma span_digits_spec (s ds rest : str) :
  span_digits s = (ds, rest) ->
  s = ds ++ rest /\ Forall (fun c => isdigit c = true) ds.
Proof.
  revert ds rest. induction s as [|c r IH]; intros ds rest; simpl.
  - intros [= <- <-]. split; [reflexivity|constructor].
  - destruct (isdigit c) eqn:Hc.
    + destruct (span_digits r) as [ds' rest'].
      intros [= <- <-]. destruct (IH ds' rest' eq_refl) as [-> Hds].
      split; [reflexivity|constructor; assumption].
    + intros [= <- <-]. split; [reflexivity|constructor].
Qed.

Lemma take_sign_spec (s body : str) (neg : bool) :
  take_sign s = (neg, body) ->
  s = body \/ s = "-"%char :: body \/ s = "+"%char :: body.
Proof.
  destruct s as [|c r]; simpl.
  - intros [= <- <-]. left. reflexivity.
  - destruct (Ascii.eqb_spec c "-") as [->|_].
    + intros [= <- <-]. right. left. reflexivity.
    + destruct (Ascii.eqb_spec c "+") as [->|_]; intros [= <- <-]; auto.
Qed.

(** *** The alphabet of float literals

    A character that is no numeric whitespace, no digit, none of
    [_ + - . e E] and no letter of [inf], [infinity] or [nan] occurs in no
    text that [float] accepts. *)
Section FloatAlphabet.

Variable bad : ascii.
Hypothesis bad_space : isspace_number bad = false.
Hypothesis bad_digit : isdigit bad = false.
Hypothesis bad_punct : forall c, In c (list_ascii_of_string "_+-.eE") -> bad <> c.
Hypothesis bad_letter :
  forall c, In c (list_ascii_of_string "infatyn") -> lower bad <> c.

Lemma bad_not_digits (ds : str) :
  Forall (fun c => isdigit c = true) ds -> ~ In bad ds.
Proof.
  intros H Hin. rewrite Forall_forall in H. apply H in Hin. congruence.
Qed.

Lemma drop_underscores_keeps (s : str) : forall prev t,
  drop_underscores prev s = Some t -> In bad s -> In bad t.
Proof.
  induction s as [|c r IH]; intros prev t; simpl; [tauto|].
  destruct (Ascii.eqb_spec c "_") as [->|Hc].
  - destruct (isdigit prev); [|discriminate].
    intros H [Hb|Hin]; [|eauto].
    exfalso. apply (bad_punct "_"); [simpl; tauto|congruence].
  - destruct (Ascii.eqb prev "_" && negb (isdigit c)); [discriminate|].
    destruct (drop_underscores c r) as [t'|] eqn:Hr; [|discriminate].
    intros [= <-] [Hb|Hin]; [left; assumption|right; eauto].
Qed.

Lemma lstrip_number_keeps (s : str) :
  In bad s -> In bad (lstrip_number s).
Proof.
  induction s as [|c r IH]; simpl; [tauto|].
  destruct (isspace_number c) eqn:Hc; [|simpl; tauto].
  intros [Hb|Hin]; [congruence|auto].
Qed.

Lemma strip_number_keeps (s : str) :
  In bad s -> In bad (strip_number s).
Proof.
  intros H. unfold strip_number.
  rewrite <- in_rev. apply lstrip_number_keeps.
  rewrite <- in_rev. apply lstrip_number_keeps, H.
Qed.

Lemma take_sign_keeps (s body : str) (neg : bool) :
  take_sign s = (neg, body) -> In bad s -> In bad body.
Proof.
  intros H Hin. destruct (take_sign_spec _ _ _ H) as [ -> | [ -> | -> ] ];
    [assumption| |]; (destruct Hin as [Hb|Hin]; [|assumption]); exfalso.
  - apply (bad_punct "-"); [simpl; tauto|congruence].
  - apply (bad_punct "+"); [simpl; tauto|congruence].
Qed.

Lemma bad_not_word (body word : str) :
  (forall c, In c word -> In c (list_ascii_of_string "infatyn")) ->
  str_eqb (map lower body) word = true -> ~ In bad body.
Proof.
  unfold str_eqb. intros Hw Heq Hin.
  destruct (list_eq_dec ascii_dec (map lower body) word) as [<-|]; [|discriminate].
  apply (bad_letter (lower bad)); [|reflexivity].
  apply Hw, in_map, Hin.
Qed.

Lemma exponent_keeps (r3 : str) :
  (let (_, r4) := take_sign r3 in
   let (ed, r5) := span_digits r4 in
   match ed, r5 with _ :: _, [] => true | _, _ => false end) = true ->
  ~ In bad r3.
Proof.
  destruct (take_sign r3) as [eneg r4] eqn:Hs.
  destruct (span_digits r4) as [ed r5] eqn:Hd.
  intros H Hin. apply (take_sign_keeps _ _ _ Hs) in Hin.
  apply span_digits_spec in Hd as [-> Hds].
  destruct ed; [discriminate|]. destruct r5; [|discriminate].
  rewrite app_nil_r in Hin. exact (bad_not_digits _ Hds Hin).
Qed.

Lemma parse_decimal_keeps (s : str) (q : Q) :
  parse_decimal s = Some q -> ~ In bad s.
Proof.
  unfold parse_decimal.
  destruct (span_digits s) as [ip r1] eqn:H1.
  apply span_digits_spec in H1 as [-> Hip].
  assert (Htail : forall fp r2,
    match ip ++ fp with
    | [] => None
    | _ :: _ =>
        match r2 with
        | [] => Some (scale10 (decimal_value (ip ++ fp)) (- Z.of_nat (length fp)))
        | c :: r3 =>
            if Ascii.eqb c "e" || Ascii.eqb c "E"
            then
              let (eneg, r4) := take_sign r3 in
              let (ed, r5) := span_digits r4 in
              match ed, r5 with
              | _ :: _, [] =>
                  Some (scale10 (decimal_value (ip ++ fp))
                          ((if eneg then (- decimal_value ed)%Z else decimal_value ed)
                           - Z.of_nat (length fp)))
              | _, _ => None
              end
            else None
        end
    end = Some q -> ~ In bad r2).
  { intros fp r2. destruct (ip ++ fp); [discriminate|].
    destruct r2 as [|c r3]; [intros _ []|].
    destruct (Ascii.eqb c "e" || Ascii.eqb c "E") eqn:Hc; [|discriminate].
    intros H [Hb|Hin].
    - apply orb_true_iff in Hc as [Hc|Hc]; apply Ascii.eqb_eq in Hc; subst c.
      + apply (bad_punct "e"); [simpl; tauto|congruence].
      + apply (bad_punct "E"); [simpl; tauto|congruence].
    - apply (exponent_keeps r3); [|exact Hin].
      destruct (take_sign r3) as [eneg r4].
      destruct (span_digits r4) as [ed r5].
      destruct ed; [discriminate|]. destruct r5; [reflexivity|discriminate]. }
  destruct r1 as [|c r].
  - intros _ Hin. rewrite app_nil_r in Hin. exact (bad_not_digits _ Hip Hin).
  - destruct (Ascii.eqb_spec c ".") as [->|Hc].
    + destruct (span_digits r) as [fp r2] eqn:H2.
      apply span_digits_spec in H2 as [-> Hfp].
      intros H Hin. apply (Htail fp r2) in H.
      apply in_app_or in Hin as [Hin|[Hb|Hin]].
      * exact (bad_not_digits _ Hip Hin).
      * apply (bad_punct "."); [simpl; tauto|congruence].
      * apply in_app_or in Hin as [Hin|Hin]; [exact (bad_not_digits _ Hfp Hin)|tauto].
    + intros H Hin. apply (Htail [] (c :: r)) in H.
      apply in_app_or in Hin as [Hin|Hin]; [exact (bad_not_digits _ Hip Hin)|tauto].
Qed.

Lemma parse_float_keeps (s : str) (x : pyfloat) :
  parse_float s = Some x -> ~ In bad s.
Proof.
  unfold parse_float.
  destruct (drop_underscores "000" s) as [t|] eqn:Ht; [|discriminate].
  destruct (take_sign (strip_number t)) as [neg body] eqn:Hs.
  intros H Hin.
  apply (drop_underscores_keeps _ _ _ Ht) in Hin.
  apply strip_number_keeps in Hin.
  apply (take_sign_keeps _ _ _ Hs) in Hin.
  destruct (str_eqb (map lower body) "inf") eqn:Hinf.
  { revert Hin. apply (bad_not_word body "inf"); [|exact Hinf].
    simpl. intuition auto. }
  destruct (str_eqb (map lower body) "infinity") eqn:Hinfinity.
  { revert Hin. apply (bad_not_word body "infinity"); [|exact Hinfinity].
    simpl. intuition auto. }
  destruct (str_eqb (map lower body) "nan") eqn:Hnan.
  { revert Hin. apply (bad_not_word body "nan"); [|exact Hnan].
    simpl. intuition auto. }
  simpl in H.
  destruct (parse_decimal body) as [q|] eqn:Hq; [|discriminate].
  exact (parse_decimal_keeps _ _ Hq Hin).
Qed.

End FloatAlphabet.

Lemma float_no_comma (s : str) (x : pyfloat) :
  parse_float s = Some x -> ~ In ","%char s.
Proof.
  apply parse_float_keeps; try reflexivity;
    intros c Hc; simpl in Hc; intuition (subst; discriminate).
Qed.

Lemma float_no_slash (s : str) (x : pyfloat) :
  parse_float s = Some x -> ~ In "/"%char s.
Proof.
  apply parse_float_keeps; try reflexivity;
    intros c Hc; simpl in Hc; intuition (subst; discriminate).
Qed.

Lemma contains_marker_cons (c : ascii) (s : str) :
  c <> "/"%char -> contains "/@" (c :: s) = contains "/@" s.
Proof.
  intros H.
  change (contains "/@" (c :: s))
    with (Ascii.eqb "/" c && startswith ["@"%char] s || contains "/@" s).
  destruct (Ascii.eqb_spec "/" c) as [<-|_]; [congruence|reflexivity].
Qed.

Lemma contains_marker_app (x y : str) :
  ~ In "/"%char x -> contains "/@" (x ++ y) = contains "/@" y.
Proof.
  induction x as [|c x IH]; intros H; [reflexivity|].
  simpl app. rewrite contains_marker_cons.
  - apply IH. intros Hin. apply H. right. exact Hin.
  - intros ->. apply H. left. reflexivity.
Qed.

Lemma lstrip_number_snoc (a : str) (c : ascii) :
  isspace_number c = false ->
  lstrip_number (a ++ [c]) = lstrip_number a ++ [c].
Proof.
  intros Hc. induction a as [|d a IH]; simpl.
  - rewrite Hc. reflexivity.
  - destruct (isspace_number d); [exact IH|reflexivity].
Qed.

Lemma str_eqb_cons_diff (c d : ascii) (s t : str) :
  c <> d -> str_eqb (c :: s) (d :: t) = false.
Proof.
  intros H. unfold str_eqb.
  destruct (list_eq_dec ascii_dec (c :: s) (d :: t)) as [E|_]; [|reflexivity].
  congruence.
Qed.

Lemma parse_float_bad_start (c : ascii) (s : str) :
  starts_no_float c = true -> parse_float (c :: s) = None.
Proof.
  unfold starts_no_float. intros H.
  apply negb_true_iff in H.
  apply orb_false_iff in H as [H Hword].
  apply orb_false_iff in H as [H Hpunct].
  apply orb_false_iff in H as [Hspace Hdigit].
  cbn [existsb list_ascii_of_string string_rect] in Hpunct, Hword.
  simpl in Hpunct, Hword.
  repeat (apply orb_false_iff in Hpunct as [? Hpunct]).
  repeat (apply orb_false_iff in Hword as [? Hword]).
  unfold parse_float. cbn [drop_underscores].
  replace (Ascii.eqb c "_") with false by (symmetry; assumption).
  change (Ascii.eqb "000" "_") with false. cbn [andb].
  destruct (drop_underscores c s) as [t|]; [|reflexivity].
  cbn [option_map]. unfold strip_number. cbn [lstrip_number].
  rewrite Hspace. cbn [rev].
  rewrite lstrip_number_snoc by exact Hspace.
  rewrite rev_app_distr. cbn [rev app].
  set (tail := rev (lstrip_number (rev t))).
  cbn [take_sign].
  replace (Ascii.eqb c "-") with false by (symmetry; assumption).
  replace (Ascii.eqb c "+") with false by (symmetry; assumption).
  cbn [map list_ascii_of_string].
  rewrite !str_eqb_cons_diff;
    try (intros E; rewrite E in *; discriminate).
  cbn [orb]. unfold parse_decimal. cbn [span_digits].
  rewrite Hdigit.
  replace (Ascii.eqb c ".") with false by (symmetry; assumption).
  reflexivity.
Qed.

(** ** The coordinate parser *)

Lemma first_two_floats_errors (segment : str) (e : exn) :
  first_two_floats segment = Raise e -> e = ValueError \/ e = IndexError.
Proof.
  unfold first_two_floats.
  pose proof (split_from_nonempty "," 0 segment) as Hne.
  fold (split "," segment) in Hne.
  destruct (split "," segment) as [|t0 rest]; [congruence|clear Hne].
  rewrite getitem_first. cbn [bind]. unfold float.
  destruct (parse_float t0); cbn [of_option bind]; [|intros [= <-]; auto].
  destruct rest as [|t1 rest]; [intros [= <-]; auto|].
  rewrite getitem_second. cbn [bind].
  destruct (parse_float t1); cbn [of_option bind]; [discriminate|intros [= <-]; auto].
Qed.

Lemma first_two_floats_tokens (lat lng tail : str) (a b : pyfloat) :
  parse_float lat = Some a -> parse_float lng = Some b ->
  ~ In ","%char lat -> ~ In ","%char lng ->
  first_two_floats (lat ++ "," ++ lng ++ "," ++ tail) = Return (a, b).
Proof.
  intros Ha Hb Hlat Hlng. unfold first_two_floats.
  change (list_ascii_of_string ",") with [","%char].
  change (lat ++ [","%char] ++ lng ++ [","%char] ++ tail)
    with (lat ++ ","%char :: (lng ++ ","%char :: tail)).
  rewrite (split_char_app _ lat) by exact Hlat.
  rewrite (split_char_app _ lng) by exact Hlng.
  rewrite getitem_first, getitem_second. cbn [bind]. unfold float.
  rewrite Ha, Hb. reflexivity.
Qed.

Lemma extract_well_formed (before lat lng rest : str) (a b : pyfloat) :
  parse_float lat = Some a -> parse_float lng = Some b ->
  contains "/@" rest = false ->
  extract_coordinates_from_url
    (before ++ "/@" ++ lat ++ "," ++ lng ++ "," ++ rest) = Return (a, b).
Proof.
  intros Ha Hb Hrest.
  pose proof (float_no_slash _ _ Ha) as Hs1.
  pose proof (float_no_slash _ _ Hb) as Hs2.
  assert (Hcomma : ~ In "/"%char (list_ascii_of_string ","))
    by (simpl; intros [H|[]]; discriminate).
  rewrite (extract_coordinates_after_last _ (lat ++ "," ++ lng ++ "," ++ rest)).
  - rewrite !upto_app by assumption.
    apply first_two_floats_tokens; eauto using float_no_comma.
  - right. exists before. split; [reflexivity|].
    rewrite !contains_marker_app by assumption. exact Hrest.
Qed.

Lemma upto_cons_other (c d : ascii) (s : str) :
  d <> c -> upto c (d :: s) = d :: upto c s.
Proof.
  intros H. simpl. destruct (Ascii.eqb_spec d c); [congruence|reflexivity].
Qed.

Lemma extract_bad_start (c : ascii) (rest : str) :
  starts_no_float c = true -> c <> "/"%char -> c <> ","%char ->
  contains "/@" (c :: rest) = false ->
  extract_coordinates_from_url (c :: rest) = Raise ValueError.
Proof.
  intros Hc Hslash Hcomma Hno.
  rewrite (extract_coordinates_after_last _ (c :: rest))
    by (left; split; [exact Hno|reflexivity]).
  unfold first_two_floats.
  change (list_ascii_of_string ",") with [","%char].
  rewrite split_char_head. cbn [bind].
  rewrite !upto_cons_other by assumption.
  unfold float. rewrite parse_float_bad_start by exact Hc. reflexivity.
Qed.

(** C4 (as amended).  A URL [prefix/@<lat>,<lng>,rest] with valid float
    literals and no further ["/@"] in [rest] parses to [(<lat>, <lng>)].
    The parser reads the text after the last ["/@"], or the whole URL when
    there is none, up to the next ["/"]; it fails exactly when that text
    has fewer than two comma-delimited tokens or one of its first two
    tokens is no float literal, and then with [ValueError] or
    [IndexError].  A URL without ["/@"] that begins with [http] fails. *)
Theorem coordinate_parser_contract :
  (forall (before lat lng rest : str) (a b : pyfloat),
      parse_float lat = Some a -> parse_float lng = Some b ->
      contains "/@" rest = false ->
      extract_coordinates_from_url
        (before ++ "/@" ++ lat ++ "," ++ lng ++ "," ++ rest) = Return (a, b))
  /\ (forall url : str, exists part : str,
        after_last_marker url part
        /\ ((exists e, extract_coordinates_from_url url = Raise e)
            <-> ill_formed (upto "/" part))
        /\ (forall e, extract_coordinates_from_url url = Raise e ->
                      e = ValueError \/ e = IndexError))
  /\ (forall rest : str,
        contains "/@" ("http" ++ rest) = false ->
        extract_coordinates_from_url ("http" ++ rest) = Raise ValueError)
  /\ extract_coordinates_from_url "prefix/@12.34,-56.78,rest"
     = Return (FNum (617 # 50), FNum (-2839 # 50)).
Proof.
  split; [exact extract_well_formed|].
  split.
  { intros url. destruct (after_last_marker_exists url) as [part Hpart].
    exists part. split; [exact Hpart|].
    rewrite (extract_coordinates_after_last _ _ Hpart).
    split; [apply first_two_floats_fails|].
    intros e. apply first_two_floats_errors. }
  split; [|vm_compute; reflexivity].
  intros rest Hno.
  apply (extract_bad_start "h" ("ttp" ++ rest)); try reflexivity;
    try discriminate; exact Hno.
Qed.

Lemma coordinate_parser_contract_witness :
  extract_coordinates_from_url
    ("https://maps.example/place/Cafe" ++ "/@" ++ "48.8584" ++ "," ++ "2.2945"
       ++ "," ++ "17z/data=!3m1")
  = Return (FNum (61073 # 1250), FNum (4589 # 2000)).
Proof.
  apply (proj1 coordinate_parser_contract); vm_compute; reflexivity.
Defined.

(** C4 (as stated) fails: a URL of the stated form whose [rest] holds a
    second ["/@"] does not parse to its [(<lat>, <lng>)], and a text
    without ["/@"] can parse. *)
Lemma coordinate_parser_counterexample :
  list_ascii_of_string "https://h/@1,2,r/@3,4,z"
    = "https://h" ++ "/@" ++ "1" ++ "," ++ "2" ++ "," ++ "r/@3,4,z"
  /\ parse_float "1" = Some (FNum (1 # 1))
  /\ parse_float "2" = Some (FNum (2 # 1))
  /\ extract_coordinates_from_url "https://h/@1,2,r/@3,4,z"
     = Return (FNum (3 # 1), FNum (4 # 1))
  /\ extract_coordinates_from_url "https://h/@1,2,r/@3,4,z"
     <> Return (FNum (1 # 1), FNum (2 # 1))
  /\ contains "/@" "12.34,-56.78" = false
  /\ extract_coordinates_from_url "12.34,-56.78"
     = Return (FNum (617 # 50), FNum (-2839 # 50)).
Proof.
  repeat split; try (vm_compute; reflexivity).
  vm_compute. discriminate.
Qed.

(** C5 (as amended).  The parser reads what follows the last ["/@"] of the
    URL (the last element of [url.split('/@')]), up to the next ["/"]: in
    a URL with several markers the coordinates returned are those after
    the last one, whatever stands before it. *)
Theorem coordinates_follow_last_marker :
  (forall before after : str,
      contains "/@" after = false ->
      extract_coordinates_from_url (before ++ "/@" ++ after)
      = first_two_floats (upto "/" after))
  /\ (forall (before lat1 lng1 between lat lng rest : str) (a b : pyfloat),
        parse_float lat = Some a -> parse_float lng = Some b ->
        contains "/@" rest = false ->
        extract_coordinates_from_url
          (before ++ "/@" ++ lat1 ++ "," ++ lng1 ++ "," ++ between
             ++ "/@" ++ lat ++ "," ++ lng ++ "," ++ rest)
        = Return (a, b)).
Proof.
  split.
  - intros before after Hno.
    apply extract_coordinates_after_last.
    right. exists before. split; [reflexivity|exact Hno].
  - intros before lat1 lng1 between lat lng rest a b Ha Hb Hno.
    replace (before ++ "/@" ++ lat1 ++ "," ++ lng1 ++ "," ++ between
               ++ "/@" ++ lat ++ "," ++ lng ++ "," ++ rest)
      with ((before ++ "/@" ++ lat1 ++ "," ++ lng1 ++ "," ++ between)
              ++ "/@" ++ lat ++ "," ++ lng ++ "," ++ rest)
      by (repeat rewrite <- app_assoc; reflexivity).
    apply extract_well_formed; assumption.
Qed.

Lemma coordinates_follow_last_marker_witness :
  extract_coordinates_from_url ("a/@1,2,x" ++ "/@" ++ "3,4,y/z")
  = first_two_floats (upto "/" "3,4,y/z").
Proof.
  apply (proj1 coordinates_follow_last_marker). reflexivity.
Defined.

(** C5 (as stated) fails: with two markers the parser returns the
    coordinates after the last one, not those after the first. *)
Lemma first_marker_counterexample :
  first_marker_parser "a/@1,2,x/@3,4,y" = Return (FNum (1 # 1), FNum (2 # 1))
  /\ extract_coordinates_from_url "a/@1,2,x/@3,4,y"
     = Return (FNum (3 # 1), FNum (4 # 1))
  /\ extract_coordinates_from_url "a/@1,2,x/@3,4,y"
     <> first_marker_parser "a/@1,2,x/@3,4,y".
Proof.
  repeat split; try (vm_compute; reflexivity).
  vm_compute. discriminate.
Qed.

(** ** The listing discovery loop *)

Lemma fst_discover_cons (total : Z) (links : list entry)
    (later : list (list entry)) (prev : nat) (out : list line) :
  exists out',
    fst (discover total (links :: later) prev out)
    = if (Z.of_nat (length links) >=? total)%Z
      then Done (map Parent (slice_to links total))
      else if length links =? prev then Done (map Link links)
           else fst (discover total later (length links) out').
Proof.
  eexists. cbn [discover].
  destruct (Z.of_nat (length links) >=? total)%Z; [reflexivity|].
  destruct (length links =? prev); reflexivity.
Qed.

Lemma last_cons_default {A : Type} (a d : A) (l : list A) :
  last (a :: l) d = last l a.
Proof.
  revert a d. induction l as [|b l IH]; intros a d; [reflexivity|].
  change (last (a :: b :: l) d) with (last (b :: l) d).
  rewrite !IH. reflexivity.
Qed.

Lemma slice_to_nonneg {A : Type} (l : list A) (k : Z) :
  (0 <= k)%Z -> slice_to l k = firstn (Z.to_nat k) l.
Proof.
  intros H. unfold slice_to.
  destruct (Z.ltb_spec k 0); [lia|reflexivity].
Qed.

Lemma slice_to_negative {A : Type} (l : list A) (k : Z) :
  (k < 0)%Z -> slice_to l k = firstn (length l - Z.to_nat (- k)) l.
Proof.
  intros H. unfold slice_to.
  destruct (Z.ltb_spec k 0); [|lia].
  f_equal. lia.
Qed.

Lemma discover_done (total : Z) (panel : list (list entry)) :
  forall (prev : nat) (out : list line) (listings : list handle),
    fst (discover total panel prev out) = Done listings <->
    exists earlier links later,
      panel = earlier ++ links :: later
      /\ still_scanning total prev (map (@length entry) earlier) = true
      /\ ((total <= Z.of_nat (length links))%Z
            /\ listings = map Parent (slice_to links total)
          \/ (Z.of_nat (length links) < total)%Z
            /\ length links = last (map (@length entry) earlier) prev
            /\ listings = map Link links).
Proof.
  induction panel as [|links0 later0 IH]; intros prev out listings.
  - split; [discriminate|].
    intros (earlier & links & later & H & _). destruct earlier; discriminate.
  - destruct (fst_discover_cons total links0 later0 prev out) as [out' ->].
    rewrite Z.geb_leb.
    destruct (Z.leb_spec total (Z.of_nat (length links0))) as [Hge|Hlt].
    + split.
      * intros [= <-]. exists [], links0, later0.
        split; [reflexivity|]. split; [reflexivity|]. left. auto.
      * intros (earlier & links & later & Heq & Hscan & Hcase).
        destruct earlier as [|e0 earlier]; simpl in Heq; injection Heq as ? ?; subst.
        -- destruct Hcase as [[_ ->]|[Hc _]]; [reflexivity|lia].
        -- simpl in Hscan. apply andb_true_iff in Hscan as [Hscan _].
           apply andb_true_iff in Hscan as [Hscan _].
           apply Z.ltb_lt in Hscan. lia.
    + destruct (Nat.eqb_spec (length links0) prev) as [Hsame|Hgrow].
      * split.
        -- intros [= <-]. exists [], links0, later0.
           split; [reflexivity|]. split; [reflexivity|]. right. auto.
        -- intros (earlier & links & later & Heq & Hscan & Hcase).
           destruct earlier as [|e0 earlier]; simpl in Heq; injection Heq as ? ?; subst.
           ++ destruct Hcase as [[Hc _]|[_ [_ ->]]]; [lia|reflexivity].
           ++ simpl in Hscan. apply andb_true_iff in Hscan as [Hscan _].
              apply andb_true_iff in Hscan as [_ Hscan].
              apply negb_true_iff, Nat.eqb_neq in Hscan. congruence.
      * rewrite IH. split.
        -- intros (earlier & links & later & -> & Hscan & Hcase).
           exists (links0 :: earlier), links, later.
           split; [reflexivity|]. split.
           ++ simpl. rewrite Hscan.
              apply Z.ltb_lt in Hlt. rewrite Hlt.
              apply Nat.eqb_neq in Hgrow. rewrite Hgrow. reflexivity.
           ++ cbn [map]. rewrite last_cons_default. exact Hcase.
        -- intros (earlier & links & later & Heq & Hscan & Hcase).
           destruct earlier as [|e0 earlier]; simpl in Heq; injection Heq as ? ?; subst.
           ++ destruct Hcase as [[Hc _]|[_ [Hc _]]]; [lia|simpl in Hc; congruence].
           ++ exists earlier, links, later.
              split; [reflexivity|].
              simpl in Hscan. apply andb_true_iff in Hscan as [_ Hscan].
              split; [exact Hscan|].
              cbn [map] in Hcase. rewrite last_cons_default in Hcase. exact Hcase.
Qed.

Lemma discover_three (total : Z) (p1 p2 p3 : list entry) (out : list line) :
  (Z.of_nat (length p1) < total)%Z -> length p1 <> 0 ->
  (Z.of_nat (length p2) < total)%Z -> length p2 <> length p1 ->
  fst (discover total [p1; p2; p3] 0 out)
  = if (Z.of_nat (length p3) >=? total)%Z
    then Done (map Parent (slice_to p3 total))
    else if length p3 =? length p2 then Done (map Link p3)
         else Scanning (length p3).
Proof.
  intros H1 H1' H2 H2'.
  destruct (fst_discover_cons total p1 [p2; p3] 0 out) as [o1 ->].
  rewrite Z.geb_leb.
  destruct (Z.leb_spec total (Z.of_nat (length p1))); [lia|].
  destruct (Nat.eqb_spec (length p1) 0); [lia|].
  destruct (fst_discover_cons total p2 [p3] (length p1) o1) as [o2 ->].
  rewrite Z.geb_leb.
  destruct (Z.leb_spec total (Z.of_nat (length p2))); [lia|].
  destruct (Nat.eqb_spec (length p2) (length p1)); [lia|].
  destruct (fst_discover_cons total p3 [] (length p2) o2) as [o3 ->].
  reflexivity.
Qed.

(** C1 (as amended).  For a target [total >= 0] the loop is [Done]
    exactly when a re-count reaches [total], with the first [total]
    enumerated entries, each resolved to its parent, or when a re-count
    below [total] equals the previous one, with all enumerated entries as
    they are.  Counts 3, 7, 7 with target 20 give 7 entries; counts 5, 12,
    25 give 20.  A negative target is reached by the first re-count, and
    the slice [[:total]] then drops the last [-total] entries. *)
Theorem discovery_loop_outcome :
  (forall (total : Z) (panel : list (list entry)) (out : list line)
          (listings : list handle),
      (0 <= total)%Z ->
      fst (discover total panel 0 out) = Done listings <->
      exists earlier links later,
        panel = earlier ++ links :: later
        /\ still_scanning total 0 (map (@length entry) earlier) = true
        /\ ((total <= Z.of_nat (length links))%Z
              /\ listings = map Parent (firstn (Z.to_nat total) links)
              /\ length listings = Z.to_nat total
            \/ (Z.of_nat (length links) < total)%Z
              /\ length links = last (map (@length entry) earlier) 0
              /\ listings = map Link links))
  /\ (forall (p1 p2 p3 : list entry) (out : list line),
        length p1 = 3 -> length p2 = 7 -> length p3 = 7 ->
        fst (discover 20 [p1; p2; p3] 0 out) = Done (map Link p3)
        /\ length (map Link p3) = 7)
  /\ (forall (p1 p2 p3 : list entry) (out : list line),
        length p1 = 5 -> length p2 = 12 -> length p3 = 25 ->
        fst (discover 20 [p1; p2; p3] 0 out)
        = Done (map Parent (firstn 20 p3))
        /\ length (map Parent (firstn 20 p3)) = 20)
  /\ (forall (total : Z) (links : list entry) (later : list (list entry))
             (out : list line),
        (total < 0)%Z ->
        fst (discover total (links :: later) 0 out)
        = Done (map Parent (firstn (length links - Z.to_nat (- total)) links))).
Proof.
  split; [|split; [|split]].
  - intros total panel out listings Htotal. rewrite discover_done.
    split; intros (earlier & links & later & Heq & Hscan & Hcase);
      exists earlier, links, later; (split; [exact Heq|]);
      (split; [exact Hscan|]).
    + destruct Hcase as [[Hge ->]|Hcase]; [left|right; exact Hcase].
      rewrite slice_to_nonneg by exact Htotal.
      repeat split; [exact Hge|].
      rewrite length_map, length_firstn. lia.
    + destruct Hcase as [(Hge & -> & _)|Hcase]; [left|right; exact Hcase].
      rewrite slice_to_nonneg by exact Htotal. auto.
  - intros p1 p2 p3 out H1 H2 H3.
    rewrite discover_three by (rewrite ?H1, ?H2; lia).
    rewrite H2, H3, length_map, H3. split; reflexivity.
  - intros p1 p2 p3 out H1 H2 H3.
    rewrite discover_three by (rewrite ?H1, ?H2; lia).
    rewrite H3, length_map, length_firstn, H3. split; reflexivity.
  - intros total links later out Htotal.
    destruct (fst_discover_cons total links later 0 out) as [out' ->].
    rewrite Z.geb_leb.
    destruct (Z.leb_spec total (Z.of_nat (length links))); [|lia].
    rewrite slice_to_negative by exact Htotal. reflexivity.
Qed.

Lemma discovery_loop_outcome_witness :
  exists earlier links later,
    [[cafe]; [cafe; bakery]; [cafe; bakery; kiosk]] = earlier ++ links :: later
    /\ still_scanning 3 0 (map (@length entry) earlier) = true
    /\ ((3 <= Z.of_nat (length links))%Z
          /\ map Parent [cafe; bakery; kiosk]
             = map Parent (firstn (Z.to_nat 3) links)
          /\ length (map Parent [cafe; bakery; kiosk]) = Z.to_nat 3
        \/ (Z.of_nat (length links) < 3)%Z
          /\ length links = last (map (@length entry) earlier) 0
          /\ map Parent [cafe; bakery; kiosk] = map Link links).
Proof.
  apply (proj1 discovery_loop_outcome 3%Z
           [[cafe]; [cafe; bakery]; [cafe; bakery; kiosk]] []).
  - lia.
  - reflexivity.
Defined.

(** C1 (as stated) fails for a negative target: the count 3 reaches the
    target -1, and the loop returns 2 entries. *)
Lemma discovery_negative_target_counterexample :
  (Z.of_nat (length [cafe; bakery; kiosk]) >= -1)%Z
  /\ fst (discover (-1) [[cafe; bakery; kiosk]] 0 [])
     = Done [Parent cafe; Parent bakery]
  /\ Z.of_nat (length [Parent cafe; Parent bakery]) <> (-1)%Z.
Proof.
  split; [simpl; lia|]. split; [reflexivity|simpl; lia].
Qed.

(** ** The scraper *)

(** *** One listing *)

Lemma scrape_listing_returns (listing : handle) (b : Business) :
  scrape_listing listing = Return b ->
  exists p a w ph rc ra c,
    click listing = Return p
    /\ text_or_empty p address_text = Return a
    /\ text_or_empty p authority_text = Return w
    /\ text_or_empty p phone_text = Return ph
    /\ read_reviews_count p = Return rc
    /\ read_reviews_average p = Return ra
    /\ extract_coordinates_from_url (url p) = Return c
    /\ b = {| name := Some (or_empty (lookup "aria-label"
                                        (attributes (element_of listing))));
              address := Some a;
              website := Some w;
              phone_number := Some ph;
              reviews_count := rc;
              reviews_average := ra;
              latitude := Some (fst c);
              longitude := Some (snd c) |}.
Proof.
  unfold scrape_listing.
  destruct (click listing) as [p|] eqn:Hp; [|discriminate]. cbn [bind].
  destruct (text_or_empty p address_text) as [a|] eqn:Ha; [|discriminate].
  cbn [bind].
  destruct (text_or_empty p authority_text) as [w|] eqn:Hw; [|discriminate].
  cbn [bind].
  destruct (text_or_empty p phone_text) as [ph|] eqn:Hph; [|discriminate].
  cbn [bind].
  destruct (read_reviews_count p) as [rc|] eqn:Hrc; [|discriminate].
  cbn [bind].
  destruct (read_reviews_average p) as [ra|] eqn:Hra; [|discriminate].
  cbn [bind].
  destruct (extract_coordinates_from_url (url p)) as [c|] eqn:Hc;
    [|discriminate].
  cbn [bind]. intros [= <-].
  exists p, a, w, ph, rc, ra, c. repeat split; assumption.
Qed.

Lemma text_or_empty_single (p : page) (x : xpath) (el : element) :
  dom p x = [el] -> text_or_empty p x = Return (or_empty (text el)).
Proof. intros H. unfold text_or_empty, text_content. rewrite H. reflexivity. Qed.

Lemma text_or_empty_absent (p : page) (x : xpath) :
  dom p x = [] -> text_or_empty p x = Raise PlaywrightTimeoutError.
Proof. intros H. unfold text_or_empty, text_content. rewrite H. reflexivity. Qed.

Lemma or_empty_some (s : str) : or_empty (Some s) = s.
Proof. destruct s; reflexivity. Qed.

(** *** The collector *)

Lemma collect_from (listings : list handle) :
  forall (business_list : list Business) (out : list line),
    fold_left collect_step listings (business_list, out)
    = (business_list ++ extracted listings, out ++ reported listings).
Proof.
  induction listings as [|l rest IH]; intros business_list out.
  - simpl. rewrite !app_nil_r. reflexivity.
  - cbn [fold_left]. unfold collect_step at 2, extracted, reported.
    cbn [flat_map].
    destruct (scrape_listing l) as [b|e]; rewrite IH;
      unfold extracted, reported; rewrite <- ?app_assoc; reflexivity.
Qed.

Lemma collect_extracted (listings : list handle) (out : list line) :
  collect listings out = (extracted listings, out ++ reported listings).
Proof. unfold collect. rewrite collect_from. reflexivity. Qed.

Lemma extracted_from (listings : list handle) (b : Business) :
  In b (extracted listings) ->
  exists listing, In listing listings /\ scrape_listing listing = Return b.
Proof.
  unfold extracted. rewrite in_flat_map. intros [l [Hl Hb]].
  exists l. split; [exact Hl|].
  destruct (scrape_listing l) as [b'|]; [|destruct Hb].
  destruct Hb as [->|[]]. reflexivity.
Qed.

(** C2.  The collector keeps exactly the records of the listings whose
    processing returns, in discovery order, and reports the others: a
    listing whose processing raises only drops out of the batch.  With
    three listings of which the second raises, the batch is the records
    of the first and the third.  The processing of a listing returns only
    when the click, every field read and the coordinate parsing returned;
    a failing click, for one, makes it raise. *)
Theorem record_collector_isolates_failures :
  (forall (listings : list handle) (out : list line),
      collect listings out = (extracted listings, out ++ reported listings))
  /\ (forall (l1 l2 l3 : handle) (b1 b3 : Business) (e : exn) (out : list line),
        scrape_listing l1 = Return b1 ->
        scrape_listing l2 = Raise e ->
        scrape_listing l3 = Return b3 ->
        collect [l1; l2; l3] out = ([b1; b3], out ++ [ErrorOccurred e]))
  /\ (forall (listing : handle) (before after : list handle) (e : exn),
        scrape_listing listing = Raise e ->
        extracted (before ++ listing :: after)
        = extracted before ++ extracted after)
  /\ (forall (listing : handle) (e : exn),
        click listing = Raise e -> scrape_listing listing = Raise e)
  /\ (forall (listing : handle) (b : Business),
        scrape_listing listing = Return b ->
        exists p a w ph c,
          click listing = Return p
          /\ text_or_empty p address_text = Return a
          /\ text_or_empty p authority_text = Return w
          /\ text_or_empty p phone_text = Return ph
          /\ read_reviews_count p = Return (reviews_count b)
          /\ read_reviews_average p = Return (reviews_average b)
          /\ extract_coordinates_from_url (url p) = Return c).
Proof.
  split; [exact collect_extracted|]. split; [|split; [|split]].
  - intros l1 l2 l3 b1 b3 e out H1 H2 H3.
    rewrite collect_extracted. unfold extracted, reported. cbn [flat_map].
    rewrite H1, H2, H3. reflexivity.
  - intros listing before after e H.
    unfold extracted. rewrite flat_map_app. cbn [flat_map].
    rewrite H. reflexivity.
  - intros listing e H. unfold scrape_listing. rewrite H. reflexivity.
  - intros listing b H.
    destruct (scrape_listing_returns _ _ H)
      as (p & a & w & ph & rc & ra & c & Hp & Ha & Hw & Hph & Hrc & Hra & Hc & ->).
    exists p, a, w, ph, c. cbn [reviews_count reviews_average]. tauto.
Qed.

Lemma record_collector_isolates_failures_witness :
  collect [Link cafe; Link stuck; Link kiosk] []
  = ([sample_record "Cafe" "1 Main St" (617 # 50) (-2839 # 50);
      sample_record "Kiosk" "3 Main St" (309 # 25) (-284 # 5)],
     [] ++ [ErrorOccurred PlaywrightTimeoutError]).
Proof.
  apply (proj1 (proj2 record_collector_isolates_failures));
    vm_compute; reflexivity.
Defined.

(** C3 (as amended).  Each of [address], [website] and [phone_number] is
    read from its own region: when the region is a single element the
    field is that element's text content as it stands, not trimmed, and
    the empty string when the text content is empty or [None]. *)
Theorem contact_fields_read :
  (forall (p : page) (x : xpath) (el : element),
      dom p x = [el] -> text_or_empty p x = Return (or_empty (text el)))
  /\ (forall s : str, or_empty (Some s) = s)
  /\ or_empty None = []
  /\ (forall (listing : handle) (p : page) (ea ew ep : element),
        click listing = Return p ->
        dom p address_text = [ea] ->
        dom p authority_text = [ew] ->
        dom p phone_text = [ep] ->
        scrape_listing listing
        = (rc <- read_reviews_count p ;;
           ra <- read_reviews_average p ;;
           c <- extract_coordinates_from_url (url p) ;;
           Return
             {| name := Some (or_empty (lookup "aria-label"
                                          (attributes (element_of listing))));
                address := Some (or_empty (text ea));
                website := Some (or_empty (text ew));
                phone_number := Some (or_empty (text ep));
                reviews_count := rc;
                reviews_average := ra;
                latitude := Some (fst c);
                longitude := Some (snd c) |})).
Proof.
  split; [exact text_or_empty_single|].
  split; [exact or_empty_some|]. split; [reflexivity|].
  intros listing p ea ew ep Hclick Ha Hw Hp. unfold scrape_listing.
  rewrite Hclick. cbn [bind].
  rewrite (text_or_empty_single _ _ _ Ha),
          (text_or_empty_single _ _ _ Hw),
          (text_or_empty_single _ _ _ Hp).
  cbn [bind].
  destruct (read_reviews_count p); [|reflexivity]. cbn [bind].
  destruct (read_reviews_average p); [|reflexivity]. cbn [bind].
  destruct (extract_coordinates_from_url (url p)); reflexivity.
Qed.

Lemma contact_fields_read_witness :
  text_or_empty (sample_page "  1 Main St " "12.34,-56.78") address_text
  = Return (or_empty (text (div "  1 Main St "))).
Proof.
  apply (proj1 contact_fields_read). reflexivity.
Defined.

(** C3 (as stated) fails: the text of an existing region is used
    untrimmed, and a missing region makes the read, and with it the whole
    listing, raise. *)
Lemma contact_fields_counterexample :
  strip "  1 Main St " = list_ascii_of_string "1 Main St"
  /\ text_or_empty (sample_page "  1 Main St " "12.34,-56.78") address_text
     = Return (list_ascii_of_string "  1 Main St ")
  /\ text_or_empty (sample_page "  1 Main St " "12.34,-56.78") address_text
     <> Return (strip "  1 Main St ")
  /\ text_or_empty
       (without address_text (sample_page "1 Main St" "12.34,-56.78"))
       address_text
     = Raise PlaywrightTimeoutError
  /\ scrape_listing
       (Link (sample_entry "Cafe"
                (Return (without address_text
                           (sample_page "1 Main St" "12.34,-56.78")))))
     = Raise PlaywrightTimeoutError.
Proof.
  repeat split; try (vm_compute; reflexivity).
  vm_compute. discriminate.
Qed.

(** *** The rating *)

Lemma until_space_cons (c : ascii) (s : str) :
  isspace c = false -> until_space (c :: s) = c :: until_space s.
Proof. intros H. simpl. rewrite H. reflexivity. Qed.

Lemma split_ws_head (s : str) :
  getitem (split_ws s) 0 = of_option IndexError (leading_token s).
Proof.
  induction s as [|c r IH]; [reflexivity|].
  unfold leading_token in *. cbn [split_ws lstrip].
  destruct (isspace c) eqn:Hc; [exact IH|].
  rewrite until_space_cons by exact Hc.
  destruct r as [|d r]; [reflexivity|].
  destruct (isspace d) eqn:Hd.
  - rewrite getitem_first. simpl. rewrite Hd. reflexivity.
  - cbn [lstrip] in IH. rewrite Hd in IH.
    destruct (split_ws (d :: r)) as [|h t]; [discriminate IH|].
    rewrite getitem_first in IH. injection IH as ->.
    cbn [push_front]. rewrite getitem_first. reflexivity.
Qed.

Lemma read_reviews_average_single (p : page) (el : element) (label : str) :
  dom p rating_img = [el] ->
  lookup "aria-label" (attributes el) = Some label ->
  read_reviews_average p
  = match leading_token label with
    | None => Raise IndexError
    | Some token =>
        match parse_float (replace "," "." token) with
        | Some x => Return (Some x)
        | None => Raise ValueError
        end
    end.
Proof.
  intros Hdom Hlabel. unfold read_reviews_average, get_attribute, split_of.
  rewrite Hdom. cbn [count length Nat.ltb Nat.leb resolve bind].
  rewrite Hlabel. cbn [of_option bind].
  rewrite split_ws_head.
  destruct (leading_token label) as [token|]; [|reflexivity].
  cbn [of_option bind]. unfold float.
  destruct (parse_float (replace "," "." token)); reflexivity.
Qed.

(** C8.  When the rating image is absent the average is absent.  When it
    is there, the average is the float read from the leading
    whitespace-delimited token of its [aria-label], commas replaced by
    periods; the label ["4,5 stars"] gives 4.5.  The record carries what
    was read. *)
Theorem rating_average_read :
  (forall p : page,
      dom p rating_img = [] -> read_reviews_average p = Return None)
  /\ (forall (p : page) (el : element) (label : str),
        dom p rating_img = [el] ->
        lookup "aria-label" (attributes el) = Some label ->
        read_reviews_average p
        = match leading_token label with
          | None => Raise IndexError
          | Some token =>
              match parse_float (replace "," "." token) with
              | Some x => Return (Some x)
              | None => Raise ValueError
              end
          end)
  /\ (forall (p : page) (el : element),
        dom p rating_img = [el] ->
        lookup "aria-label" (attributes el)
        = Some (list_ascii_of_string "4,5 stars") ->
        read_reviews_average p = Return (Some (FNum (9 # 2))))
  /\ (forall (listing : handle) (b : Business),
        scrape_listing listing = Return b ->
        exists p, click listing = Return p
                  /\ read_reviews_average p = Return (reviews_average b)).
Proof.
  split; [|split; [exact read_reviews_average_single|split]].
  - intros p H. unfold read_reviews_average. rewrite H. reflexivity.
  - intros p el Hdom Hlabel.
    rewrite (read_reviews_average_single p el _ Hdom Hlabel).
    vm_compute. reflexivity.
  - intros listing b H.
    destruct (scrape_listing_returns _ _ H)
      as (p & a & w & ph & rc & ra & c & Hp & _ & _ & _ & _ & Hra & _ & ->).
    exists p. split; assumption.
Qed.

Lemma rating_average_read_witness :
  read_reviews_average (without rating_img (sample_page "1 Main St" "1,2"))
  = Return None.
Proof.
  apply (proj1 rating_average_read). reflexivity.
Defined.

(** *** Coordinates of the records *)

Lemma scrape_listing_coordinates (listing : handle) (b : Business) :
  scrape_listing listing = Return b ->
  exists p c,
    click listing = Return p
    /\ extract_coordinates_from_url (url p) = Return c
    /\ latitude b = Some (fst c) /\ longitude b = Some (snd c).
Proof.
  intros H.
  destruct (scrape_listing_returns _ _ H)
    as (p & a & w & ph & rc & ra & c & Hp & _ & _ & _ & _ & _ & Hc & ->).
  exists p, c. repeat split; assumption.
Qed.

Lemma scrape_listing_paired (listing : handle) (b : Business) :
  scrape_listing listing = Return b -> coordinates_paired b.
Proof.
  intros H. destruct (scrape_listing_coordinates _ _ H)
    as (p & c & _ & _ & Hlat & Hlng).
  right. rewrite Hlat, Hlng. split; discriminate.
Qed.

(** *** Records written by the program *)

Section Keeps.

Variable good : Business -> Prop.
Hypothesis scraped_good :
  forall listing b, scrape_listing listing = Return b -> good b.

Lemma keeps_seq {A B : Type} (Q : A -> Prop) (R : B -> Prop)
    (m : prog A) (k : A -> prog B) :
  keeps good Q m -> (forall a, Q a -> keeps good R (k a)) ->
  keeps good R (seq_ m k).
Proof.
  intros Hm Hk s Hs. unfold seq_.
  destruct (Hm s Hs) as [H1 H2].
  destruct (m s) as [[a|e|n|] s'] eqn:E; cbn [fst snd] in *.
  - apply Hk; auto.
  - split; [assumption|discriminate].
  - split; [assumption|discriminate].
  - split; [assumption|discriminate].
Qed.

Lemma keeps_same_files {A : Type} (m : prog A) :
  (forall s, files (snd (m s)) = files s) -> keeps good anything m.
Proof.
  intros H s Hs. split; [|intros; exact I].
  unfold files_hold in *. rewrite H. exact Hs.
Qed.

Lemma keeps_weaken {A : Type} (Q : A -> Prop) (m : prog A) :
  keeps good Q m -> keeps good anything m.
Proof.
  intros H s Hs. destruct (H s Hs) as [H1 _]. split; [exact H1|intros; exact I].
Qed.

Lemma keeps_print (l : line) : keeps good anything (print l).
Proof. apply keeps_same_files. reflexivity. Qed.

Lemma keeps_act (a : action) : keeps good anything (act a).
Proof. apply keeps_same_files. reflexivity. Qed.

Lemma keeps_ret {A : Type} (a : A) : keeps good anything (ret a).
Proof. apply keeps_same_files. reflexivity. Qed.

Lemma keeps_exit {A : Type} : keeps good anything (@sys_exit A).
Proof. apply keeps_same_files. reflexivity. Qed.

Lemma keeps_lift {A : Type} (o : outcome A) : keeps good anything (lift o).
Proof. apply keeps_same_files. intros s. destruct o; reflexivity. Qed.

Lemma keeps_discover (total : Z) (r : results) (scrolls : nat) :
  keeps good anything (discover_listings total r scrolls).
Proof.
  apply keeps_same_files. intros s. unfold discover_listings.
  destruct (discover total (place_links r scrolls) 0 (console s)) as [[p|ls] out];
    reflexivity.
Qed.

Lemma keeps_collect (listings : list handle) :
  keeps good (all_good good) (collect_records listings).
Proof.
  intros s Hs. unfold collect_records.
  rewrite collect_extracted. cbn [fst snd]. split; [exact Hs|].
  intros rows [= <-] b Hb.
  destruct (extracted_from _ _ Hb) as [l [_ Hl]]. eauto.
Qed.

Lemma keeps_save (w : world) (rows : list Business) (filename ext : str) :
  all_good good rows -> keeps good anything (save w rows filename ext).
Proof.
  intros Hrows s Hs. split; [|intros; exact I].
  unfold save. destruct (disk w (save_at ++ "/" ++ filename ++ ext));
    cbn [snd]; [|exact Hs].
  intros path rows' b Hin Hb. cbn [files] in Hin.
  apply in_app_or in Hin as [Hin|[[= <- <-]|[]]]; eauto.
Qed.

Lemma keeps_scrape_query (w : world) (total : Z) (scrolls index : nat)
    (search_for : str) :
  keeps good anything (scrape_query w total scrolls index search_for).
Proof.
  unfold scrape_query.
  apply (keeps_seq anything); [apply keeps_print|intros _ _].
  apply (keeps_seq anything); [apply keeps_act|intros _ _].
  apply (keeps_seq anything); [apply keeps_lift|intros _ _].
  apply (keeps_seq anything); [apply keeps_lift|intros _ _].
  apply (keeps_seq anything); [apply keeps_discover|intros listings _].
  apply (keeps_seq (all_good good)); [apply keeps_collect|intros rows Hrows].
  apply (keeps_seq anything); [apply keeps_save, Hrows|intros _ _].
  apply keeps_save, Hrows.
Qed.

Lemma keeps_scrape_queries (w : world) (total : Z) (scrolls : nat)
    (search_list : list str) :
  forall index, keeps good anything (scrape_queries w total scrolls index search_list).
Proof.
  induction search_list as [|q rest IH]; intros index; cbn [scrape_queries].
  - apply keeps_ret.
  - apply (keeps_seq anything); [apply keeps_scrape_query|intros _ _].
    apply IH.
Qed.

Lemma keeps_main (search : option str) (total : option Z)
    (input_txt : option (list str)) (w : world) (scrolls : nat) :
  keeps good anything (main search total input_txt w scrolls).
Proof.
  unfold main.
  apply (keeps_seq anything).
  - unfold read_searches. destruct (search_list_of search); [|apply keeps_ret].
    destruct (length _ =? 0); [|apply keeps_ret].
    apply (keeps_seq anything); [apply keeps_print|intros _ _].
    apply keeps_exit.
  - intros search_list _.
    apply (keeps_seq anything); [apply keeps_act|intros _ _].
    apply (keeps_seq anything); [apply keeps_lift|intros _ _].
    apply (keeps_seq anything); [apply keeps_scrape_queries|intros _ _].
    apply keeps_act.
Qed.

End Keeps.

(** C9.  Every record of a batch, and every record of every file the
    program writes, has latitude and longitude both present or both
    absent: both are set, together, from one parse of the URL of the page
    that the click on the record's listing opened. *)
Theorem coordinates_paired_in_records :
  (forall (listings : list handle) (out : list line) (b : Business),
      In b (fst (collect listings out)) ->
      coordinates_paired b
      /\ exists listing p c,
           In listing listings
           /\ click listing = Return p
           /\ extract_coordinates_from_url (url p) = Return c
           /\ latitude b = Some (fst c) /\ longitude b = Some (snd c))
  /\ (forall (search : option str) (total : option Z)
             (input_txt : option (list str)) (w : world) (scrolls : nat)
             (path : str) (rows : list Business) (b : Business),
        In (path, rows)
           (files (snd (main search total input_txt w scrolls start))) ->
        In b rows -> coordinates_paired b)
  /\ (forall (b : Business) (c : pyfloat * pyfloat),
        latitude (assign_coordinates b c) = Some (fst c)
        /\ longitude (assign_coordinates b c) = Some (snd c)).
Proof.
  split; [|split].
  - intros listings out b. rewrite collect_extracted. cbn [fst]. intros Hb.
    destruct (extracted_from _ _ Hb) as [listing [Hl Hs]].
    split; [exact (scrape_listing_paired _ _ Hs)|].
    destruct (scrape_listing_coordinates _ _ Hs) as (p & c & H).
    exists listing, p, c. tauto.
  - intros search total input_txt w scrolls.
    apply (keeps_main coordinates_paired scrape_listing_paired
             search total input_txt w scrolls start).
    intros path rows b [].
  - intros b c. split; reflexivity.
Qed.

Lemma coordinates_paired_in_records_witness :
  coordinates_paired (sample_record "Cafe" "1 Main St" (617 # 50) (-2839 # 50))
  /\ exists listing p c,
       In listing [Link cafe; Link stuck]
       /\ click listing = Return p
       /\ extract_coordinates_from_url (url p) = Return c
       /\ latitude (sample_record "Cafe" "1 Main St" (617 # 50) (-2839 # 50))
          = Some (fst c)
       /\ longitude (sample_record "Cafe" "1 Main St" (617 # 50) (-2839 # 50))
          = Some (snd c).
Proof.
  apply (proj1 coordinates_paired_in_records [Link cafe; Link stuck] []).
  vm_compute. left. reflexivity.
Defined.

(** *** The query loop *)

Lemma scrape_queries_app (w : world) (total : Z) (scrolls : nat)
    (done rest : list str) :
  forall (index : nat) (s : session),
    scrape_queries w total scrolls index (done ++ rest) s
    = match scrape_queries w total scrolls index done s with
      | (Normal _, s1) =>
          scrape_queries w total scrolls (index + length done) rest s1
      | other => other
      end.
Proof.
  induction done as [|q done IH]; intros index s.
  - cbn [app scrape_queries ret length]. rewrite Nat.add_0_r. reflexivity.
  - cbn [app scrape_queries length]. unfold seq_.
    destruct (scrape_query w total scrolls index q s) as [[[]|e|n|] s'];
      try reflexivity.
    rewrite IH. rewrite Nat.add_succ_r. reflexivity.
Qed.

Lemma scrape_queries_stop (w : world) (total : Z) (scrolls index : nat)
    (q : str) (rest : list str) (s s' : session) (e : exn) :
  scrape_query w total scrolls index q s = (Uncaught e, s') ->
  scrape_queries w total scrolls index (q :: rest) s = (Uncaught e, s').
Proof.
  intros H. cbn [scrape_queries]. unfold seq_. rewrite H. reflexivity.
Qed.

Lemma scrape_query_no_results (w : world) (total : Z) (scrolls index : nat)
    (q : str) (s : session) :
  searchbox (site w (strip q)) = Return tt ->
  shown (site w (strip q)) 0 = [] ->
  fst (scrape_query w total scrolls index q s) = Uncaught PlaywrightTimeoutError.
Proof.
  intros Hbox Hshown. unfold scrape_query.
  unfold seq_, print, act, lift. cbn [fst snd].
  rewrite Hbox, Hshown. reflexivity.
Qed.

(** C6 (as amended).  A failure raised by the processing of one query
    outside the per-listing [try] is not caught: the query loop ends with
    it, and the queries after it are not processed; the queries before it
    have been processed.  A query for which the site shows no place link
    is such a failure: the hover on the first link times out. *)
Theorem query_failure_ends_batch :
  (forall (w : world) (total : Z) (scrolls index : nat)
          (done : list str) (q : str) (rest : list str)
          (s s1 s2 : session) (e : exn),
      scrape_queries w total scrolls index done s = (Normal tt, s1) ->
      scrape_query w total scrolls (index + length done) q s1
      = (Uncaught e, s2) ->
      scrape_queries w total scrolls index (done ++ q :: rest) s
      = (Uncaught e, s2))
  /\ (forall (w : world) (total : Z) (scrolls index : nat)
             (q : str) (s : session),
        searchbox (site w (strip q)) = Return tt ->
        shown (site w (strip q)) 0 = [] ->
        fst (scrape_query w total scrolls index q s)
        = Uncaught PlaywrightTimeoutError).
Proof.
  split; [|exact scrape_query_no_results].
  intros w total scrolls index done q rest s s1 s2 e Hdone Hq.
  rewrite scrape_queries_app, Hdone.
  apply scrape_queries_stop, Hq.
Qed.

Lemma query_failure_ends_batch_witness :
  scrape_queries sample_world 1000000 3 0
    (["coffee shops" ++ newline] ++ ("nowhere" ++ newline)
       :: ["coffee shops" ++ newline]) start
  = (Uncaught PlaywrightTimeoutError,
     snd (scrape_queries sample_world 1000000 3 0
            ["coffee shops" ++ newline; "nowhere" ++ newline] start)).
Proof.
  apply (proj1 query_failure_ends_batch sample_world 1000000%Z 3 0
           ["coffee shops" ++ newline] ("nowhere" ++ newline)
           ["coffee shops" ++ newline] start
           (snd (scrape_queries sample_world 1000000 3 0
                   ["coffee shops" ++ newline] start)));
    vm_compute; reflexivity.
Defined.

(** C6 (as stated) fails: with the searches "nowhere" and "coffee shops"
    the first shows no place link, the program ends with the timeout of
    its hover, and the second search, which on its own is processed and
    written, is never made. *)
Lemma query_isolation_counterexample :
  fst (main None None (Some sample_input) sample_world 3 start)
  = Uncaught PlaywrightTimeoutError
  /\ browser (snd (main None None (Some sample_input) sample_world 3 start))
     = [Launch; Search "nowhere"]
  /\ files (snd (main None None (Some sample_input) sample_world 3 start)) = []
  /\ fst (main None None (Some ["coffee shops" ++ newline]) sample_world 3 start)
     = Normal tt
  /\ length (files (snd (main None None (Some ["coffee shops" ++ newline])
                           sample_world 3 start))) = 2.
Proof.
  repeat split; vm_compute; reflexivity.
Qed.

(** C7 (the code at the failing input).  Without a search argument and
    without lines from [input.txt] the program prints the error message
    and exits before the browser is launched; the exit status is 0. *)
Theorem no_search_exits_with_status_zero :
  forall (search : option str) (total : option Z)
         (input_txt : option (list str)) (w : world) (scrolls : nat),
    search_list_of search = [] ->
    input_txt = None \/ input_txt = Some [] ->
    main search total input_txt w scrolls start
    = (Exited 0,
       {| console := [Text no_search_message]; browser := []; files := [] |}).
Proof.
  intros search total input_txt w scrolls Hsearch Hinput.
  unfold main, read_searches. rewrite Hsearch.
  destruct Hinput as [->| ->]; reflexivity.
Qed.

Lemma no_search_exits_with_status_zero_witness :
  main None None None sample_world 3 start
  = (Exited 0,
     {| console := [Text no_search_message]; browser := []; files := [] |}).
Proof.
  apply no_search_exits_with_status_zero; [reflexivity|left; reflexivity].
Defined.

(** C10.  A result cap of 0 is replaced by the default 1,000,000, as an
    absent cap is: the test is on the value, so the program runs alike
    with a cap of 0 and with none; any other cap is kept. *)
Theorem zero_cap_is_default :
  total_of (Some 0%Z) = 1000000%Z
  /\ total_of None = 1000000%Z
  /\ (forall t : Z, total_of (Some t) = if (t =? 0)%Z then 1000000%Z else t)
  /\ (forall (search : option str) (input_txt : option (list str))
             (w : world) (scrolls : nat) (s : session),
        main search (Some 0%Z) input_txt w scrolls s
        = main search None input_txt w scrolls s).
Proof.
  repeat split; reflexivity.
Qed.

(** * Further properties of the code *)

(** ** More on the listing discovery loop *)

Lemma discover_scanning (total : Z) (panel : list (list entry)) :
  forall (prev : nat) (out : list line) (p : nat),
    fst (discover total panel prev out) = Scanning p <->
    still_scanning total prev (map (@length entry) panel) = true
    /\ p = last (map (@length entry) panel) prev.
Proof.
  induction panel as [|links later IH]; intros prev out p.
  - simpl. split; [intros [= <-]; auto|intros [_ ->]; reflexivity].
  - destruct (fst_discover_cons total links later prev out) as [out' ->].
    cbn [map still_scanning]. rewrite last_cons_default, Z.geb_leb.
    destruct (Z.leb_spec total (Z.of_nat (length links))) as [Hge|Hlt].
    + destruct (Z.ltb_spec (Z.of_nat (length links)) total); [lia|].
      split; [discriminate|intros [Hx _]; discriminate].
    + destruct (Z.ltb_spec (Z.of_nat (length links)) total); [|lia].
      destruct (Nat.eqb_spec (length links) prev) as [Hsame|Hgrow].
      * split; [discriminate|intros [Hx _]; discriminate].
      * rewrite IH. reflexivity.
Qed.

Lemma discover_done_or_scanning (total : Z) (panel : list (list entry))
    (prev : nat) (out : list line) :
  (exists listings, fst (discover total panel prev out) = Done listings)
  \/ (exists p, fst (discover total panel prev out) = Scanning p).
Proof.
  destruct (fst (discover total panel prev out)); eauto.
Qed.

Lemma growing_counts (total : Z) (counts : list nat) :
  forall prev,
    still_scanning total prev counts = true ->
    never_shrinks prev counts = true ->
    prev + length counts <= last counts prev.
Proof.
  induction counts as [|c later IH]; intros prev Hscan Hgrow.
  - simpl. lia.
  - rewrite last_cons_default. cbn [still_scanning never_shrinks length] in *.
    apply andb_true_iff in Hscan as [Hscan Hlater].
    apply andb_true_iff in Hscan as [_ Hdiff].
    apply negb_true_iff, Nat.eqb_neq in Hdiff.
    apply andb_true_iff in Hgrow as [Hle Hgrow].
    apply Nat.leb_le in Hle.
    specialize (IH c Hlater Hgrow). lia.
Qed.

Lemma last_in_or_default {A : Type} (l : list A) (d : A) :
  l = [] \/ In (last l d) l.
Proof.
  induction l as [|a l IH]; [left; reflexivity|right].
  destruct IH as [->|IH]; [left; reflexivity|].
  destruct l as [|b l]; [destruct IH|]. right. exact IH.
Qed.

Lemma firstn_min_length {A : Type} (n : nat) (l : list A) :
  firstn (Nat.min n (length l)) l = firstn n l.
Proof.
  destruct (Nat.le_ge_cases n (length l)) as [H|H].
  - rewrite Nat.min_l by exact H. reflexivity.
  - rewrite Nat.min_r by exact H. rewrite firstn_all, firstn_all2; auto.
Qed.

(** X1.  The loop goes on exactly as long as every re-count is below the
    target and differs from the count before it, whether it grew or
    shrank; it then remembers the last count. *)
Theorem discovery_keeps_scanning :
  forall (total : Z) (panel : list (list entry)) (prev : nat)
         (out : list line) (p : nat),
    fst (discover total panel prev out) = Scanning p <->
    still_scanning total prev (map (@length entry) panel) = true
    /\ p = last (map (@length entry) panel) prev.
Proof. exact discover_scanning. Qed.

(** X2.  When the panel never shows fewer entries than before and never
    more than [bound], the loop is [Done] within [bound + 1] scrolls,
    whatever the target. *)
Theorem discovery_ends_on_monotone_panel :
  forall (total : Z) (panel : list (list entry)) (out : list line)
         (bound : nat),
    never_shrinks 0 (map (@length entry) panel) = true ->
    Forall (fun links => length links <= bound) panel ->
    bound < length panel ->
    exists listings, fst (discover total panel 0 out) = Done listings.
Proof.
  intros total panel out bound Hgrow Hbound Hlen.
  destruct (discover_done_or_scanning total panel 0 out) as [H|[p H]];
    [exact H|exfalso].
  apply discover_scanning in H as [Hscan _].
  pose proof (growing_counts _ _ _ Hscan Hgrow) as Hlast.
  rewrite length_map in Hlast.
  destruct (last_in_or_default (map (@length entry) panel) 0) as [Hnil|Hin].
  - destruct panel; [simpl in Hlen; lia|discriminate].
  - apply in_map_iff in Hin as [links [Heq Hin]].
    rewrite Forall_forall in Hbound. apply Hbound in Hin. lia.
Qed.

Lemma discovery_ends_on_monotone_panel_witness :
  exists listings,
    fst (discover 20 [[cafe]; [cafe; bakery]; [cafe; bakery]] 0 [])
    = Done listings.
Proof.
  apply (discovery_ends_on_monotone_panel 20%Z _ [] 2).
  - reflexivity.
  - repeat constructor.
  - simpl. lia.
Defined.

(** X3.  With a target that is not negative the loop never returns more
    listings than the target. *)
Theorem discovery_respects_cap :
  forall (total : Z) (panel : list (list entry)) (prev : nat)
         (out : list line) (listings : list handle),
    (0 <= total)%Z ->
    fst (discover total panel prev out) = Done listings ->
    (Z.of_nat (length listings) <= total)%Z.
Proof.
  intros total panel prev out listings Htotal H.
  apply discover_done in H
    as (earlier & links & later & _ & _ & [[Hge ->]|(Hlt & _ & ->)]).
  - rewrite slice_to_nonneg by exact Htotal.
    rewrite length_map, length_firstn. lia.
  - rewrite length_map. lia.
Qed.

Lemma discovery_respects_cap_witness :
  (Z.of_nat (length [Parent cafe; Parent bakery]) <= 2)%Z.
Proof.
  apply (discovery_respects_cap 2%Z [[cafe; bakery; kiosk]] 0 []).
  - lia.
  - reflexivity.
Defined.

(** X4.  The listings returned all come from one observed state of the
    panel, in its order: they are the parents of its first entries, or
    all of its links. *)
Theorem discovery_listings_from_one_snapshot :
  forall (total : Z) (panel : list (list entry)) (prev : nat)
         (out : list line) (listings : list handle),
    fst (discover total panel prev out) = Done listings ->
    exists links,
      In links panel
      /\ (listings = map Parent (firstn (length listings) links)
          \/ listings = map Link links).
Proof.
  intros total panel prev out listings H.
  apply discover_done in H
    as (earlier & links & later & -> & _ & [[Hge ->]|(Hlt & _ & ->)]);
    exists links; (split; [apply in_elt|]); [left|right; reflexivity].
  rewrite length_map. unfold slice_to.
  destruct (total <? 0)%Z; rewrite length_firstn, firstn_min_length;
    reflexivity.
Qed.

Lemma discovery_listings_from_one_snapshot_witness :
  exists links,
    In links [[cafe]; [cafe; bakery]; [cafe; bakery]]
    /\ ([Link cafe; Link bakery]
        = map Parent (firstn (length [Link cafe; Link bakery]) links)
        \/ [Link cafe; Link bakery] = map Link links).
Proof.
  apply (discovery_listings_from_one_snapshot 20%Z
           [[cafe]; [cafe; bakery]; [cafe; bakery]] 0 []).
  reflexivity.
Defined.

(** ** More on the processing of one listing *)

Lemma text_or_empty_raises (p : page) (x : xpath) (e : exn) :
  text_or_empty p x = Raise e ->
  e = PlaywrightTimeoutError \/ e = PlaywrightError.
Proof.
  unfold text_or_empty, text_content, resolve.
  destruct (dom p x) as [|el [|el' rest]]; cbn [bind];
    [intros [= <-]; auto|discriminate|intros [= <-]; auto].
Qed.

Lemma bind_raise {A B : Type} (m : outcome A) (k : A -> outcome B) (e : exn) :
  m = Raise e -> bind m k = Raise e.
Proof. intros ->. reflexivity. Qed.

Lemma bind_raises {A B : Type} (m : outcome A) (k : A -> outcome B)
    (P : exn -> Prop) :
  (forall e, m = Raise e -> P e) ->
  (forall a, exists e, k a = Raise e /\ P e) ->
  exists e, bind m k = Raise e /\ P e.
Proof.
  intros Hm Hk. destruct m as [a|e]; cbn [bind]; [apply Hk|].
  exists e. split; [reflexivity|apply Hm; reflexivity].
Qed.

(** X5.  A listing is dropped when one of the address, website or phone
    regions of its page matches nothing: the read times out (or an
    earlier read fails on several matches), and the batch is the same as
    without that listing. *)
Theorem missing_contact_region_drops_listing :
  forall (listing : handle) (p : page),
    click listing = Return p ->
    dom p address_text = [] \/ dom p authority_text = []
    \/ dom p phone_text = [] ->
    (exists e, scrape_listing listing = Raise e
               /\ (e = PlaywrightTimeoutError \/ e = PlaywrightError))
    /\ forall before after : list handle,
         extracted (before ++ listing :: after)
         = extracted before ++ extracted after.
Proof.
  intros listing p Hclick Hmissing.
  assert (H : exists e, scrape_listing listing = Raise e
                        /\ (e = PlaywrightTimeoutError \/ e = PlaywrightError)).
  { unfold scrape_listing. rewrite Hclick. cbn [bind].
    destruct Hmissing as [H|[H|H]].
    - rewrite (text_or_empty_absent _ _ H). cbn [bind]. eauto.
    - apply bind_raises; [apply text_or_empty_raises|intros a].
      rewrite (text_or_empty_absent _ _ H). cbn [bind]. eauto.
    - apply bind_raises; [apply text_or_empty_raises|intros a].
      apply bind_raises; [apply text_or_empty_raises|intros w].
      rewrite (text_or_empty_absent _ _ H). cbn [bind]. eauto. }
  split; [exact H|].
  destruct H as [e [He _]]. intros before after.
  unfold extracted. rewrite flat_map_app. cbn [flat_map].
  rewrite He. reflexivity.
Qed.

Lemma missing_contact_region_drops_listing_witness :
  (exists e,
      scrape_listing
        (Link (sample_entry "Cafe"
                 (Return (without authority_text
                            (sample_page "1 Main St" "12.34,-56.78")))))
      = Raise e
      /\ (e = PlaywrightTimeoutError \/ e = PlaywrightError))
  /\ forall before after : list handle,
       extracted
         (before
            ++ Link (sample_entry "Cafe"
                       (Return (without authority_text
                                  (sample_page "1 Main St" "12.34,-56.78"))))
            :: after)
       = extracted before ++ extracted after.
Proof.
  apply (missing_contact_region_drops_listing _
           (without authority_text (sample_page "1 Main St" "12.34,-56.78"))).
  - reflexivity.
  - right. left. reflexivity.
Defined.

(** X6.  Missing review regions do not drop a listing: with the three
    contact regions there and a URL that parses, the record is made with
    [reviews_count] and [reviews_average] absent. *)
Theorem missing_reviews_keep_listing :
  forall (listing : handle) (p : page) (ea ew ep : element)
         (c : pyfloat * pyfloat),
    click listing = Return p ->
    dom p address_text = [ea] ->
    dom p authority_text = [ew] ->
    dom p phone_text = [ep] ->
    dom p more_reviews_span = [] ->
    dom p rating_img = [] ->
    extract_coordinates_from_url (url p) = Return c ->
    scrape_listing listing
    = Return
        {| name := Some (or_empty (lookup "aria-label"
                                     (attributes (element_of listing))));
           address := Some (or_empty (text ea));
           website := Some (or_empty (text ew));
           phone_number := Some (or_empty (text ep));
           reviews_count := None;
           reviews_average := None;
           latitude := Some (fst c);
           longitude := Some (snd c) |}.
Proof.
  intros listing p ea ew ep c Hclick Ha Hw Hp Hrc Hra Hc.
  unfold scrape_listing. rewrite Hclick. cbn [bind].
  rewrite (text_or_empty_single _ _ _ Ha),
          (text_or_empty_single _ _ _ Hw),
          (text_or_empty_single _ _ _ Hp).
  cbn [bind]. unfold read_reviews_count, read_reviews_average.
  rewrite Hrc, Hra. cbn [count length Nat.ltb Nat.leb bind].
  rewrite Hc. reflexivity.
Qed.

Lemma missing_reviews_keep_listing_witness :
  scrape_listing
    (Link (sample_entry "Cafe"
             (Return (without rating_img
                        (without more_reviews_span
                           (sample_page "1 Main St" "12.34,-56.78"))))))
  = Return
      {| name := Some (list_ascii_of_string "Cafe");
         address := Some (list_ascii_of_string "1 Main St");
         website := Some (list_ascii_of_string "cafe.example");
         phone_number := Some (list_ascii_of_string "555 0100");
         reviews_count := None;
         reviews_average := None;
         latitude := Some (FNum (617 # 50));
         longitude := Some (FNum (-2839 # 50)) |}.
Proof.
  exact (missing_reviews_keep_listing
           (Link (sample_entry "Cafe"
                    (Return (without rating_img
                               (without more_reviews_span
                                  (sample_page "1 Main St" "12.34,-56.78"))))))
           (without rating_img
              (without more_reviews_span
                 (sample_page "1 Main St" "12.34,-56.78")))
           (div "1 Main St") (div "cafe.example") (div "555 0100")
           (FNum (617 # 50), FNum (-2839 # 50))
           eq_refl eq_refl eq_refl eq_refl eq_refl eq_refl
           ltac:(vm_compute; reflexivity)).
Defined.



(** X8.  Every listing is accounted for once: the records of the batch
    and the diagnostics printed add up to the number of listings, and
    what was printed before stays in front. *)
Theorem collector_accounts_for_every_listing :
  forall (listings : list handle) (out : list line),
    length (fst (collect listings out))
    + length (reported listings) = length listings
    /\ snd (collect listings out) = out ++ reported listings
    /\ length (fst (collect listings out)) <= length listings.
Proof.
  intros listings out. rewrite collect_extracted. cbn [fst snd].
  assert (H : length (extracted listings) + length (reported listings)
              = length listings).
  { induction listings as [|l rest IH]; [reflexivity|].
    unfold extracted, reported in *. cbn [flat_map].
    rewrite !length_app.
    destruct (scrape_listing l); cbn [length]; lia. }
  repeat split; [exact H|lia].
Qed.

(** ** The review count *)











(** ** More on the coordinate parser *)

Lemma upto_ends_segment (tail : str) :
  ends_segment tail -> upto "/" tail = [].
Proof. intros [->|[rest ->]]; reflexivity. Qed.

Lemma getitem_second_missing {A : Type} (x : A) :
  getitem [x] 1 = Raise IndexError.
Proof. reflexivity. Qed.

Lemma comma_no_slash : ~ In "/"%char (list_ascii_of_string ",").
Proof. simpl. intros [H|[]]; discriminate. Qed.

(** X10.  The third comma is not needed: when the two literals are
    followed by the end of the URL or by a path separator, the parser
    returns them.  With one valid literal only it raises [IndexError], and
    a first token that is no float raises [ValueError] whatever follows
    it. *)
Theorem coordinate_parser_token_count :
  (forall (before lat lng tail : str) (a b : pyfloat),
      parse_float lat = Some a -> parse_float lng = Some b ->
      ends_segment tail -> contains "/@" tail = false ->
      extract_coordinates_from_url (before ++ "/@" ++ lat ++ "," ++ lng ++ tail)
      = Return (a, b))
  /\ (forall (before lat tail : str) (a : pyfloat),
        parse_float lat = Some a ->
        ends_segment tail -> contains "/@" tail = false ->
        extract_coordinates_from_url (before ++ "/@" ++ lat ++ tail)
        = Raise IndexError)
  /\ (forall url part : str,
        after_last_marker url part ->
        parse_float (upto "," (upto "/" part)) = None ->
        extract_coordinates_from_url url = Raise ValueError).
Proof.
  split; [|split].
  - intros before lat lng tail a b Ha Hb Htail Hno.
    pose proof (float_no_slash _ _ Ha) as Hs1.
    pose proof (float_no_slash _ _ Hb) as Hs2.
    pose proof comma_no_slash as Hs3.
    rewrite (extract_coordinates_after_last _ (lat ++ "," ++ lng ++ tail)).
    + rewrite !upto_app by assumption.
      rewrite (upto_ends_segment _ Htail), app_nil_r.
      unfold first_two_floats.
      change (list_ascii_of_string ",") with [","%char].
      change (lat ++ [","%char] ++ lng) with (lat ++ ","%char :: lng).
      rewrite (split_char_app _ lat) by exact (float_no_comma _ _ Ha).
      rewrite (split_char_none _ lng) by exact (float_no_comma _ _ Hb).
      rewrite getitem_first, getitem_second. cbn [bind]. unfold float.
      rewrite Ha, Hb. reflexivity.
    + right. exists before. split; [reflexivity|].
      rewrite !contains_marker_app by assumption. exact Hno.
  - intros before lat tail a Ha Htail Hno.
    pose proof (float_no_slash _ _ Ha) as Hs1.
    rewrite (extract_coordinates_after_last _ (lat ++ tail)).
    + rewrite upto_app by assumption.
      rewrite (upto_ends_segment _ Htail), app_nil_r.
      unfold first_two_floats.
      change (list_ascii_of_string ",") with [","%char].
      rewrite (split_char_none _ lat) by exact (float_no_comma _ _ Ha).
      rewrite getitem_first, getitem_second_missing. cbn [bind]. unfold float.
      rewrite Ha. reflexivity.
    + right. exists before. split; [reflexivity|].
      rewrite contains_marker_app by assumption. exact Hno.
  - intros url part Hpart Hbad.
    rewrite (extract_coordinates_after_last _ _ Hpart).
    unfold first_two_floats.
    change (list_ascii_of_string ",") with [","%char].
    rewrite split_char_head. cbn [bind]. unfold float.
    change (list_ascii_of_string ",") with [","%char] in Hbad.
    change (list_ascii_of_string "/") with ["/"%char] in Hbad.
    change (list_ascii_of_string "/") with ["/"%char].
    rewrite Hbad. reflexivity.
Qed.

Lemma coordinate_parser_token_count_witness :
  extract_coordinates_from_url
    ("https://maps.example/place/Cafe" ++ "/@" ++ "48.8584" ++ "," ++ "2.2945"
       ++ "/data=!3m1")
  = Return (FNum (61073 # 1250), FNum (4589 # 2000)).
Proof.
  apply (proj1 coordinate_parser_token_count).
  - vm_compute; reflexivity.
  - vm_compute; reflexivity.
  - right. eexists. reflexivity.
  - reflexivity.
Defined.

(** ** Search texts and file names *)

Lemma lstrip_head (s : str) :
  lstrip s = [] \/ exists c r, lstrip s = c :: r /\ isspace c = false.
Proof.
  induction s as [|c r IH]; [left; reflexivity|]. simpl.
  destruct (isspace c) eqn:Hc; [exact IH|]. right. eauto.
Qed.

Lemma lstrip_snoc (a : str) (c : ascii) :
  isspace c = false -> lstrip (a ++ [c]) = lstrip a ++ [c].
Proof.
  intros Hc. induction a as [|d a IH]; simpl.
  - rewrite Hc. reflexivity.
  - destruct (isspace d); [exact IH|reflexivity].
Qed.

Lemma lstrip_idem (s : str) : lstrip (lstrip s) = lstrip s.
Proof.
  destruct (lstrip_head s) as [->|(c & r & -> & Hc)]; [reflexivity|].
  simpl. rewrite Hc. reflexivity.
Qed.

Lemma lstrip_spaces_app (ws s : str) :
  forallb isspace ws = true -> lstrip (ws ++ s) = lstrip s.
Proof.
  induction ws as [|c ws IH]; [reflexivity|]. cbn [forallb app lstrip].
  intros H. apply andb_true_iff in H as [Hc Hws]. rewrite Hc. auto.
Qed.

Lemma rstrip_app_spaces (s ws : str) :
  forallb isspace ws = true -> rstrip (s ++ ws) = rstrip s.
Proof.
  intros H. unfold rstrip. rewrite rev_app_distr, lstrip_spaces_app;
    [reflexivity|].
  rewrite forallb_forall in *. intros c Hc. apply H, in_rev, Hc.
Qed.

Lemma rstrip_idem (s : str) : rstrip (rstrip s) = rstrip s.
Proof. unfold rstrip. rewrite rev_involutive, lstrip_idem. reflexivity. Qed.

Lemma rstrip_cons (c : ascii) (r : str) :
  isspace c = false -> rstrip (c :: r) = c :: rstrip r.
Proof.
  intros Hc. unfold rstrip. cbn [rev].
  rewrite lstrip_snoc by exact Hc. rewrite rev_app_distr. reflexivity.
Qed.

Lemma lstrip_strip (s : str) : lstrip (strip s) = strip s.
Proof.
  unfold strip.
  destruct (lstrip_head s) as [->|(c & r & -> & Hc)]; [reflexivity|].
  rewrite rstrip_cons by exact Hc. simpl. rewrite Hc. reflexivity.
Qed.

Lemma strip_idem (s : str) : strip (strip s) = strip s.
Proof.
  unfold strip at 1. rewrite lstrip_strip.
  unfold strip. apply rstrip_idem.
Qed.

Lemma lstrip_app_spaces (s ws : str) :
  forallb isspace ws = true ->
  lstrip (s ++ ws) = lstrip s ++ ws
  \/ (lstrip s = [] /\ lstrip (s ++ ws) = []).
Proof.
  intros H. induction s as [|c r IH]; simpl.
  - right. split; [reflexivity|].
    rewrite <- (app_nil_r ws). apply (lstrip_spaces_app ws [] H).
  - destruct (isspace c); [exact IH|left; reflexivity].
Qed.

Lemma strip_surrounded (before s after : str) :
  forallb isspace before = true -> forallb isspace after = true ->
  strip (before ++ s ++ after) = strip s.
Proof.
  intros Hb Ha. unfold strip. rewrite lstrip_spaces_app by exact Hb.
  destruct (lstrip_app_spaces s after Ha) as [->|[-> ->]];
    [apply rstrip_app_spaces, Ha|reflexivity].
Qed.

(** X11.  A search text is used without the whitespace around it, so a
    line of [input.txt] with its newline, or with blanks around it, is
    the same search and is saved under the same name as the bare
    text. *)
Theorem surrounding_whitespace_is_ignored :
  forall (w : world) (total : Z) (scrolls index : nat)
         (before search_for after : str),
    forallb isspace before = true ->
    forallb isspace after = true ->
    scrape_query w total scrolls index (before ++ search_for ++ after)
    = scrape_query w total scrolls index search_for
    /\ scrape_query w total scrolls index (strip search_for)
       = scrape_query w total scrolls index search_for.
Proof.
  intros w total scrolls index before search_for after Hb Ha.
  unfold scrape_query.
  rewrite (strip_surrounded _ _ _ Hb Ha), strip_idem. split; reflexivity.
Qed.

Lemma surrounding_whitespace_is_ignored_witness :
  scrape_query sample_world 5 3 0 (" " ++ "coffee shops" ++ newline)
  = scrape_query sample_world 5 3 0 "coffee shops"
  /\ scrape_query sample_world 5 3 0 (strip "coffee shops")
     = scrape_query sample_world 5 3 0 "coffee shops".
Proof.
  apply (surrounding_whitespace_is_ignored sample_world 5%Z 3 0
           " " "coffee shops" newline); reflexivity.
Defined.

Lemma replace_blank_no_blank (s : str) :
  ~ In " "%char (replace " " "_" s).
Proof.
  unfold replace. induction s as [|c r IH]; [intros []|].
  cbn [flat_map]. intros H. apply in_app_or in H as [H|H]; [|tauto].
  destruct (Ascii.eqb_spec c " ") as [->|Hc].
  - simpl in H. destruct H as [H|[]]. discriminate.
  - destruct H as [H|[]]. congruence.
Qed.

Lemma replace_blank_idem (s : str) :
  replace " " "_" (replace " " "_" s) = replace " " "_" s.
Proof.
  unfold replace. induction s as [|c r IH]; [reflexivity|].
  cbn [flat_map]. rewrite flat_map_app, IH. f_equal.
  destruct (Ascii.eqb_spec c " ") as [->|Hc]; [reflexivity|].
  cbn [flat_map]. destruct (Ascii.eqb_spec c " "); [congruence|reflexivity].
Qed.

(** X12.  The name under which a batch is saved has no blank, and a
    search text and the same text with its blanks written as underscores
    are saved under the same name: the two searches share their files. *)
Theorem file_names_identify_blank_and_underscore :
  forall search_for : str,
    ~ In " "%char (file_name search_for)
    /\ file_name (replace " " "_" search_for) = file_name search_for
    /\ xlsx_path (replace " " "_" search_for) = xlsx_path search_for
    /\ csv_path (replace " " "_" search_for) = csv_path search_for.
Proof.
  intros s. unfold xlsx_path, csv_path, file_name.
  rewrite replace_blank_idem. repeat split.
  intros H. apply in_app_or in H as [H|H].
  - revert H. vm_compute. intuition discriminate.
  - exact (replace_blank_no_blank _ H).
Qed.

(** ** What one search and the whole run leave behind *)

(** The rows of a file are the records of the listings that the loop
    found for some search of the list. *)
Lemma scrape_query_effect (w : world) (total : Z) (scrolls index : nat)
    (q : str) (s : session) :
  browser (snd (scrape_query w total scrolls index q s))
  = browser s ++ [Search (strip q)]
  /\ (forall n, fst (scrape_query w total scrolls index q s) <> Exited n)
  /\ exists added,
       files (snd (scrape_query w total scrolls index q s)) = files s ++ added
       /\ (fst (scrape_query w total scrolls index q s) = Normal tt ->
           exists rows, added = written [(q, rows)])
       /\ (forall path rows, In (path, rows) added ->
             exists listings out,
               fst (discover total (place_links (site w (strip q)) scrolls)
                      0 out) = Done listings
               /\ rows = extracted listings).
Proof.
  unfold scrape_query, seq_, print, act, lift. cbn [fst snd browser files].
  destruct (searchbox (site w (strip q))) as [[]|e1]; cbn [fst snd browser files].
  2:{ split; [reflexivity|]. split; [discriminate|].
      exists []. rewrite app_nil_r. repeat split; [discriminate|intros ? ? []]. }
  unfold hover.
  destruct (shown (site w (strip q)) 0) as [|l0 ls0];
    cbn [fst snd browser files].
  { split; [reflexivity|]. split; [discriminate|].
    exists []. rewrite app_nil_r. repeat split; [discriminate|intros ? ? []]. }
  unfold discover_listings. cbn [console browser files].
  match goal with
  | |- context [discover total ?panel 0 ?out] =>
      destruct (discover total panel 0 out) as [[p|listings] out'] eqn:Hd
  end; cbn [fst snd browser files].
  { split; [reflexivity|]. split; [discriminate|].
    exists []. rewrite app_nil_r. repeat split; [discriminate|intros ? ? []]. }
  assert (Hfound : exists listings0 out0,
             fst (discover total (place_links (site w (strip q)) scrolls)
                    0 out0) = Done listings0
             /\ extracted listings = extracted listings0).
  { eexists listings, _. rewrite Hd. split; reflexivity. }
  unfold collect_records. cbn [console browser files].
  rewrite collect_extracted. cbn [fst snd browser files].
  unfold save. cbn [console browser files].
  fold (file_name (strip q)). fold (xlsx_path (strip q)).
  fold (csv_path (strip q)).
  destruct (disk w (xlsx_path (strip q))); cbn [fst snd browser files].
  2:{ split; [reflexivity|]. split; [discriminate|].
      exists []. rewrite app_nil_r. repeat split; [discriminate|intros ? ? []]. }
  destruct (disk w (csv_path (strip q))); cbn [fst snd browser files].
  - split; [reflexivity|]. split; [discriminate|].
    exists (written [(q, extracted listings)]).
    split; [rewrite <- app_assoc; reflexivity|].
    split; [intros _; eexists; reflexivity|].
    intros path rows [[= <- <-]|[[= <- <-]|[]]]; exact Hfound.
  - split; [reflexivity|]. split; [discriminate|].
    exists [(xlsx_path (strip q), extracted listings)].
    split; [reflexivity|]. split; [discriminate|].
    intros path rows [[= <- <-]|[]]; exact Hfound.
Qed.

Lemma scrape_queries_effect (w : world) (total : Z) (scrolls : nat)
    (search_list : list str) :
  forall (index : nat) (s : session),
    (forall n, fst (scrape_queries w total scrolls index search_list s)
               <> Exited n)
    /\ (exists k,
          k <= length search_list
          /\ browser (snd (scrape_queries w total scrolls index search_list s))
             = browser s ++ searched (firstn k search_list)
          /\ (fst (scrape_queries w total scrolls index search_list s)
              = Normal tt -> k = length search_list))
    /\ exists added,
         files (snd (scrape_queries w total scrolls index search_list s))
         = files s ++ added
         /\ (fst (scrape_queries w total scrolls index search_list s)
             = Normal tt ->
             exists batches,
               map fst batches = search_list /\ added = written batches)
         /\ (forall path rows, In (path, rows) added ->
               exists q listings out,
                 In q search_list
                 /\ fst (discover total
                           (place_links (site w (strip q)) scrolls) 0 out)
                    = Done listings
                 /\ rows = extracted listings).
Proof.
  induction search_list as [|q rest IH]; intros index s.
  - cbn [scrape_queries ret fst snd]. split; [discriminate|]. split.
    + exists 0. rewrite app_nil_r. auto.
    + exists []. rewrite app_nil_r. split; [reflexivity|].
      split; [intros _; exists []; auto|intros ? ? []].
  - cbn [scrape_queries]. unfold seq_.
    destruct (scrape_query_effect w total scrolls index q s)
      as (Hb & Hexit & added1 & Hf & Hnormal & Hrows).
    destruct (scrape_query w total scrolls index q s) as [[[]|e|n|] s1];
      cbn [fst snd] in *.
    + destruct (IH (S index) s1)
        as (Hexit' & (k & Hk & Hb' & Hall) & added2 & Hf' & Hnormal' & Hrows').
      split; [exact Hexit'|]. split.
      * exists (S k). split; [simpl; lia|]. split.
        -- rewrite Hb', Hb, <- app_assoc. reflexivity.
        -- intros H. simpl. f_equal. auto.
      * exists (added1 ++ added2). split; [rewrite Hf', Hf, app_assoc; reflexivity|].
        split.
        -- intros H. destruct (Hnormal eq_refl) as [rows ->].
           destruct (Hnormal' H) as (batches & <- & ->).
           exists ((q, rows) :: batches). split; reflexivity.
        -- intros path rows Hin. apply in_app_or in Hin as [Hin|Hin].
           ++ destruct (Hrows _ _ Hin) as (listings & out & H1 & H2).
              exists q, listings, out. repeat split; [left; reflexivity|exact H1|exact H2].
           ++ destruct (Hrows' _ _ Hin) as (q' & listings & out & H0 & H1 & H2).
              exists q', listings, out. repeat split; [right; exact H0|exact H1|exact H2].
    + split; [discriminate|]. split.
      * exists 1. split; [simpl; lia|]. split; [exact Hb|discriminate].
      * exists added1. split; [exact Hf|]. split; [discriminate|].
        intros path rows Hin.
        destruct (Hrows _ _ Hin) as (listings & out & H1 & H2).
        exists q, listings, out. repeat split; [left; reflexivity|exact H1|exact H2].
    + exfalso. exact (Hexit n eq_refl).
    + split; [discriminate|]. split.
      * exists 1. split; [simpl; lia|]. split; [exact Hb|discriminate].
      * exists added1. split; [exact Hf|]. split; [discriminate|].
        intros path rows Hin.
        destruct (Hrows _ _ Hin) as (listings & out & H1 & H2).
        exists q, listings, out. repeat split; [left; reflexivity|exact H1|exact H2].
Qed.

Lemma read_searches_effect (search : option str)
    (input_txt : option (list str)) (s : session) :
  (searches search input_txt = []
   /\ read_searches search input_txt s
      = (Exited 0,
         {| console := console s ++ [Text no_search_message];
            browser := browser s;
            files := files s |}))
  \/ (searches search input_txt <> []
      /\ read_searches search input_txt s
         = (Normal (searches search input_txt), s)).
Proof.
  unfold read_searches, searches.
  destruct (search_list_of search) as [|q rest]; cbn;
    [|right; split; [discriminate|reflexivity]].
  destruct input_txt as [[|l lines]|]; cbn; [left|right|left];
    (split; [reflexivity || discriminate|reflexivity]).
Qed.

(** The run of [main] from the start, by cases. *)
Lemma main_effect (search : option str) (total : option Z)
    (input_txt : option (list str)) (w : world) (scrolls : nat) :
  (searches search input_txt = []
   /\ main search total input_txt w scrolls start
      = (Exited 0,
         {| console := [Text no_search_message]; browser := []; files := [] |}))
  \/ (searches search input_txt <> []
      /\ (forall n, fst (main search total input_txt w scrolls start)
                    <> Exited n)
      /\ (exists k,
            k <= length (searches search input_txt)
            /\ (fst (main search total input_txt w scrolls start) = Normal tt ->
                browser (snd (main search total input_txt w scrolls start))
                = [Launch] ++ searched (searches search input_txt) ++ [Close])
            /\ (fst (main search total input_txt w scrolls start) <> Normal tt ->
                browser (snd (main search total input_txt w scrolls start))
                = [Launch] ++ searched (firstn k (searches search input_txt))))
      /\ (fst (main search total input_txt w scrolls start) = Normal tt ->
          exists batches,
            map fst batches = searches search input_txt
            /\ files (snd (main search total input_txt w scrolls start))
               = written batches)
      /\ (forall path rows,
            In (path, rows)
               (files (snd (main search total input_txt w scrolls start))) ->
            exists q listings out,
              In q (searches search input_txt)
              /\ fst (discover (total_of total)
                        (place_links (site w (strip q)) scrolls) 0 out)
                 = Done listings
              /\ rows = extracted listings)).
Proof.
  unfold main, seq_.
  destruct (read_searches_effect search input_txt start) as [[Hnone ->]|[Hsome ->]].
  - left. split; [exact Hnone|reflexivity].
  - right. split; [exact Hsome|].
    unfold act, lift. cbn [fst snd console browser files start].
    destruct (maps_home w) as [[]|e]; cbn [fst snd console browser files].
    2:{ split; [discriminate|]. split.
        - exists 0. split; [lia|]. split; [discriminate|reflexivity].
        - split; [discriminate|intros ? ? []]. }
    match goal with
    | |- context [scrape_queries w ?t scrolls 0 ?sl ?s0] =>
        destruct (scrape_queries_effect w t scrolls sl 0 s0)
          as (Hexit & (k & Hk & Hb & Hall) & added & Hf & Hnormal & Hrows);
        destruct (scrape_queries w t scrolls 0 sl s0) as [[[]|e|n|] s1]
    end; cbn [fst snd console browser files] in *.
    + split; [discriminate|]. split.
      * exists k. split; [exact Hk|]. split; [|congruence].
        intros _. rewrite Hb, (Hall eq_refl), firstn_all. reflexivity.
      * split.
        -- intros _. destruct (Hnormal eq_refl) as (batches & H1 & ->).
           exists batches. split; [exact H1|exact Hf].
        -- intros path rows Hin. rewrite Hf in Hin. exact (Hrows _ _ Hin).
    + split; [discriminate|]. split.
      * exists k. split; [exact Hk|]. split; [discriminate|].
        intros _. exact Hb.
      * split; [discriminate|].
        intros path rows Hin. rewrite Hf in Hin. exact (Hrows _ _ Hin).
    + exfalso. exact (Hexit n eq_refl).
    + split; [discriminate|]. split.
      * exists k. split; [exact Hk|]. split; [discriminate|].
        intros _. exact Hb.
      * split; [discriminate|].
        intros path rows Hin. rewrite Hf in Hin. exact (Hrows _ _ Hin).
Qed.

Lemma discover_length_le (total : Z) (panel : list (list entry)) (prev : nat)
    (out : list line) (listings : list handle) :
  (0 <= total)%Z ->
  fst (discover total panel prev out) = Done listings ->
  (Z.of_nat (length listings) <= total)%Z.
Proof.
  intros Htotal H.
  apply discover_done in H
    as (earlier & links & later & _ & _ & [[Hge ->]|(Hlt & _ & ->)]).
  - rewrite slice_to_nonneg by exact Htotal.
    rewrite length_map, length_firstn. lia.
  - rewrite length_map. lia.
Qed.

Lemma extracted_length_le (listings : list handle) :
  length (extracted listings) <= length listings.
Proof.
  induction listings as [|l rest IH]; [reflexivity|].
  unfold extracted in *. cbn [flat_map]. rewrite length_app.
  destruct (scrape_listing l); cbn [length]; lia.
Qed.


Lemma exit_only_without_searches_aux (search : option str)
    (total : option Z) (input_txt : option (list str)) (w : world)
    (scrolls : nat) (n : Z) :
  fst (main search total input_txt w scrolls start) = Exited n
  <-> n = 0%Z /\ searches search input_txt = [].
Proof.
  destruct (main_effect search total input_txt w scrolls)
    as [[Hnone ->]|(Hsome & Hexit & _)]; cbn [fst].
  - split; [intros [= <-]; auto|intros [-> _]; reflexivity].
  - split; [intros H; destruct (Hexit n H)|intros [_ H]; contradiction].
Qed.




(** X15.  When the run completes, the files written are, search by search
    in the order of the list, one spreadsheet and one delimited-text file
    holding the same rows, under the paths made from the stripped search
    text; and in every run, each file's rows are the records of the
    listings that the loop found for one of the searches. *)
Theorem files_written_by_a_run :
  forall (search : option str) (total : option Z)
         (input_txt : option (list str)) (w : world) (scrolls : nat),
    (fst (main search total input_txt w scrolls start) = Normal tt ->
     exists batches,
       map fst batches = searches search input_txt
       /\ files (snd (main search total input_txt w scrolls start))
          = written batches)
    /\ (forall path rows,
          In (path, rows)
             (files (snd (main search total input_txt w scrolls start))) ->
          exists q listings out,
            In q (searches search input_txt)
            /\ fst (discover (total_of total)
                      (place_links (site w (strip q)) scrolls) 0 out)
               = Done listings
            /\ rows = extracted listings).
Proof.
  intros search total input_txt w scrolls.
  destruct (main_effect search total input_txt w scrolls)
    as [[Hnone ->]|(_ & _ & _ & Hnormal & Hrows)]; cbn [fst snd files].
  - split; [discriminate|intros ? ? []].
  - split; assumption.
Qed.

Lemma files_written_by_a_run_witness :
  exists batches,
    map fst batches = searches None (Some ["coffee shops" ++ newline])
    /\ files (snd (main None None (Some ["coffee shops" ++ newline])
                     sample_world 3 start))
       = written batches.
Proof.
  apply (proj1 (files_written_by_a_run None None
                  (Some ["coffee shops" ++ newline]) sample_world 3)).
  vm_compute. reflexivity.
Defined.

(** X16.  With a cap that is not negative (the default included), no file
    that the program writes has more rows than the cap. *)
Theorem cap_bounds_every_file :
  forall (search : option str) (total : option Z)
         (input_txt : option (list str)) (w : world) (scrolls : nat)
         (path : str) (rows : list Business),
    (0 <= total_of total)%Z ->
    In (path, rows)
       (files (snd (main search total input_txt w scrolls start))) ->
    (Z.of_nat (length rows) <= total_of total)%Z.
Proof.
  intros search total input_txt w scrolls path rows Htotal Hin.
  destruct (main_effect search total input_txt w scrolls)
    as [[Hnone Heq]|(_ & _ & _ & _ & Hrows)].
  - rewrite Heq in Hin. destruct Hin.
  - destruct (Hrows _ _ Hin) as (q & listings & out & _ & Hd & ->).
    pose proof (discover_length_le _ _ _ _ _ Htotal Hd).
    pose proof (extracted_length_le listings). lia.
Qed.

Lemma cap_bounds_every_file_witness :
  (Z.of_nat (length [sample_record [] "1 Main St" (617 # 50) (-2839 # 50)])
   <= total_of (Some 1%Z))%Z.
Proof.
  apply (cap_bounds_every_file None (Some 1%Z)
           (Some ["coffee shops" ++ newline]) sample_world 3
           (xlsx_path "coffee shops")).
  - vm_compute. discriminate.
  - vm_compute. left. reflexivity.
Defined.

(** X17.  With a non-empty [-s] argument [input.txt] plays no part: the
    run is the same whatever the file holds, and it never ends with the
    exit for a missing search. *)
Theorem search_argument_overrides_input_file :
  forall (c : ascii) (s : str) (total : option Z)
         (input_txt other_txt : option (list str)) (w : world)
         (scrolls : nat) (st : session),
    main (Some (c :: s)) total input_txt w scrolls st
    = main (Some (c :: s)) total other_txt w scrolls st
    /\ searches (Some (c :: s)) input_txt = [c :: s]
    /\ forall n,
         fst (main (Some (c :: s)) total input_txt w scrolls start)
         <> Exited n.
Proof.
  intros c s total input_txt other_txt w scrolls st.
  split; [reflexivity|]. split; [reflexivity|].
  intros n H.
  apply (proj1 (exit_only_without_searches_aux _ _ _ _ _ _)) in H
    as [_ H]. discriminate.
Qed.

(** X18.  When the spreadsheet of a search cannot be written, the
    delimited-text file is not attempted: the search leaves no file, and
    its processing does not complete. *)
Theorem failed_spreadsheet_leaves_no_file :
  forall (w : world) (total : Z) (scrolls index : nat) (q : str)
         (s : session) (e : exn),
    disk w (xlsx_path (strip q)) = Raise e ->
    files (snd (scrape_query w total scrolls index q s)) = files s
    /\ fst (scrape_query w total scrolls index q s) <> Normal tt.
Proof.
  intros w total scrolls index q s e Hdisk.
  unfold scrape_query, seq_, print, act, lift. cbn [fst snd browser files].
  destruct (searchbox (site w (strip q))) as [[]|e1];
    cbn [fst snd browser files]; [|split; [reflexivity|discriminate]].
  unfold hover.
  destruct (shown (site w (strip q)) 0) as [|l0 ls0];
    cbn [fst snd browser files]; [split; [reflexivity|discriminate]|].
  unfold discover_listings. cbn [console browser files].
  match goal with
  | |- context [discover total ?panel 0 ?out] =>
      destruct (discover total panel 0 out) as [[p|listings] out']
  end; cbn [fst snd browser files]; [split; [reflexivity|discriminate]|].
  unfold collect_records. cbn [console browser files].
  rewrite collect_extracted. cbn [fst snd browser files].
  unfold save. cbn [console browser files].
  fold (file_name (strip q)). fold (xlsx_path (strip q)).
  rewrite Hdisk. cbn [fst snd browser files].
  split; [reflexivity|discriminate].
Qed.

Lemma failed_spreadsheet_leaves_no_file_witness :
  files (snd (scrape_query
                {| maps_home := Return tt;
                   site := site sample_world;
                   disk := fun path =>
                     if str_eqb path (xlsx_path "coffee shops")
                     then Raise OSError else Return tt |}
                5 3 0 "coffee shops" start))
  = files start
  /\ fst (scrape_query
            {| maps_home := Return tt;
               site := site sample_world;
               disk := fun path =>
                 if str_eqb path (xlsx_path "coffee shops")
                 then Raise OSError else Return tt |}
            5 3 0 "coffee shops" start)
     <> Normal tt.
Proof.
  apply (failed_spreadsheet_leaves_no_file _ 5%Z 3 0 "coffee shops" start OSError).
  vm_compute. reflexivity.
Defined.

